(** * computer_use_demo/telegram_bot.py: task lifecycle of the Telegram shim

    A shallow embedding of the handlers of [telegram_bot.py] and the
    properties of its per-user task lifecycle.

    The module keeps two process-wide dictionaries, [user_states] and
    [active_tasks].  A conversation state is a Python dict that the running
    task, the callbacks and [user_states] all reference, and its
    ["messages"] entry is a Python list that is handed to the external
    [sampling_loop] by reference.  Both kinds of object therefore live in a
    store here ([dicts], [lists]) and are named by their address.

    The sampling loop, the Telegram client and the clock are collaborators
    outside the module.  What the loop does while a task is suspended in it
    is given by an [event]: it calls one of the three callbacks, mutates the
    list it was given, or ends (returns a history, raises, or is cancelled).
    Inbound updates are events as well, so that commands and further
    messages interleave with a suspended task as [concurrent_updates(True)]
    allows.  Calls to the Telegram client are recorded in [sent] and are
    taken to succeed; between two events a handler runs without
    interruption, so the sampling loop is the one place where a task waits
    and where a cancellation reaches it.  [logging] calls are not part of
    the modelled state. *)

From Stdlib Require Import Ascii.
From stdpp Require Import gmap strings list fin_maps pretty.

Open Scope string_scope.
Open Scope list_scope.

(** ** Values exchanged with the collaborators *)

(** A content block of the loop ([BetaContentBlockParam]): the callbacks
    look at ["type"] and, for the two types they handle, at the fields
    below.  [input] is the rendering of the tool input in the f-string. *)
Inductive BetaContentBlockParam :=
  | text_block (text : string)
  | tool_use_block (id name input : string)
  | other_block (type : string).

Record message := Message {
  role : string;
  content : list BetaContentBlockParam
}.

(** Modelled from the spec: [computer_use_demo.tools.ToolResult], whose
    declaration is not among the sources.  Section 6 gives a tool result an
    optional output text, an optional error text and an optional image
    payload; the callback reads them as [output], [error] and
    [base64_image]. *)
Record ToolResult := mkToolResult {
  output : option string;
  error : option string;
  base64_image : option string
}.

(** What [api_response_callback] receives as [response]:
    [httpx.Response | object | None]. *)
Inductive response_object :=
  | httpx_Response (body : string)
  | other_object (repr : string).

Definition request := string.

(** The exceptions the handlers distinguish.  [asyncio.CancelledError]
    derives from [BaseException], the other two from [Exception]; each
    carries its [str()]. *)
Inductive exc :=
  | CancelledError
  | RateLimitError (str : string)
  | OtherException (str : string).

Definition is_Exception (e : exc) : bool :=
  match e with CancelledError => false | _ => true end.

Definition str_exc (e : exc) : string :=
  match e with
  | CancelledError => ""
  | RateLimitError s | OtherException s => s
  end.

(** How a coroutine finished. *)
Inductive result :=
  | Normal
  | Raise (e : exc).

(** An inbound update: the sender and the text of the message. *)
Record Update := mkUpdate {
  effective_user_id : Z;
  message_text : string
}.

(** A call to the Telegram client.  A sent message is named by its position
    in the log of calls; that is the handle [reply_text] returns. *)
Inductive bot_call :=
  | ReplyText (update : Update) (text : string) (parse_mode : option string)
  | ReplyPhoto (update : Update) (photo : string)
  | EditText (status_message : nat) (text : string) (parse_mode : option string)
  | Delete (status_message : nat).

(** [datetime.now()] as read by [api_response_callback]. *)
Record datetime := mkDatetime {
  year : N; month : N; day : N;
  hour : N; minute : N; second : N; microsecond : N
}.

(** How the awaited [sampling_loop] call ended: it returned the list it was
    given or another list, or an exception came out of it. *)
Inductive loop_return :=
  | same_list
  | new_list (msgs : list message).

Inductive loop_outcome :=
  | returned (r : loop_return)
  | raised (e : exc).

(** ** The store *)

(** The dict created at lines 73-79; ["messages"] holds the address of a
    list object. *)
Record user_state := mkState {
  messages : nat;
  tools : gmap string ToolResult;
  responses : gmap string (request * option response_object);
  only_n_most_recent_images : Z;
  custom_system_prompt : string
}.

(** A task created by [handle_message]: the arguments of its
    [process_message] coroutine, the list it passed to the loop, whether
    [cancel()] was called on it, how it finished and how the handler that
    awaited it finished. *)
Record task := mkTask {
  t_update : Update;
  t_state : nat;
  t_status_message : nat;
  t_messages : nat;
  cancel_requested : bool;
  t_result : option result;
  t_handler : option result
}.

Record world := mkWorld {
  user_states : gmap Z nat;
  active_tasks : gmap Z nat;
  dicts : list user_state;
  lists : list (list message);
  tasks : list task;
  sent : list bot_call
}.

Definition initial : world := mkWorld ∅ ∅ [] [] [] [].

Definition send (c : bot_call) (w : world) : world :=
  mkWorld (user_states w) (active_tasks w) (dicts w) (lists w) (tasks w)
          (sent w ++ [c]).

Definition set_list (l : nat) (h : list message) (w : world) : world :=
  mkWorld (user_states w) (active_tasks w) (dicts w) (<[l := h]> (lists w))
          (tasks w) (sent w).

Definition alloc_list (h : list message) (w : world) : world :=
  mkWorld (user_states w) (active_tasks w) (dicts w) (lists w ++ [h])
          (tasks w) (sent w).

Definition set_dict (d : nat) (st : user_state) (w : world) : world :=
  mkWorld (user_states w) (active_tasks w) (<[d := st]> (dicts w)) (lists w)
          (tasks w) (sent w).

Definition alloc_dict (st : user_state) (w : world) : world :=
  mkWorld (user_states w) (active_tasks w) (dicts w ++ [st]) (lists w)
          (tasks w) (sent w).

Definition set_user_states (m : gmap Z nat) (w : world) : world :=
  mkWorld m (active_tasks w) (dicts w) (lists w) (tasks w) (sent w).

Definition set_active_tasks (m : gmap Z nat) (w : world) : world :=
  mkWorld (user_states w) m (dicts w) (lists w) (tasks w) (sent w).

Definition set_tasks (ts : list task) (w : world) : world :=
  mkWorld (user_states w) (active_tasks w) (dicts w) (lists w) ts (sent w).

Definition set_messages (l : nat) (st : user_state) : user_state :=
  mkState l (tools st) (responses st) (only_n_most_recent_images st)
          (custom_system_prompt st).

Definition set_tools (m : gmap string ToolResult) (st : user_state)
  : user_state :=
  mkState (messages st) m (responses st) (only_n_most_recent_images st)
          (custom_system_prompt st).

Definition set_responses (m : gmap string (request * option response_object))
    (st : user_state) : user_state :=
  mkState (messages st) (tools st) m (only_n_most_recent_images st)
          (custom_system_prompt st).

Definition set_cancel_requested (tk : task) : task :=
  mkTask (t_update tk) (t_state tk) (t_status_message tk) (t_messages tk)
         true (t_result tk) (t_handler tk).

Definition set_finished (r h : result) (tk : task) : task :=
  mkTask (t_update tk) (t_state tk) (t_status_message tk) (t_messages tk)
         (cancel_requested tk) (Some r) (Some h).

(** The history of the conversation state at address [d]:
    [state["messages"]] read through both references. *)
Definition history (w : world) (d : nat) : option (list message) :=
  st ← dicts w !! d; lists w !! messages st.

(** The history stored for a user, if the user has a state. *)
Definition user_history (w : world) (user_id : Z) : option (list message) :=
  d ← user_states w !! user_id; history w d.

(** ** Strings *)

Definition nl : string := String (Ascii.ascii_of_nat 10) "".

Definition WARNING_TEXT : string :=
  "⚠️ Security Alert: Never provide access to sensitive accounts or data, as malicious web content can hijack Claude's behavior".

Definition Markdown : option string := Some "Markdown".

(** Python truthiness of an optional string: [None] and [""] are false. *)
Definition truthy (s : option string) : bool :=
  match s with
  | None => false
  | Some s => negb (bool_decide (s = ""))
  end.

Definition processing_text : string := "Processing your request...".

Definition cancelled_text : string := "Processing cancelled.".

Definition generic_error_text (e : string) : string :=
  "❌ An error occurred: ```" +:+ nl +:+ e +:+ nl +:+ "```".

Definition rate_limit_text (e : string) : string :=
  "⚠️ *Rate limit exceeded*" +:+ nl +:+ nl +:+
  "```" +:+ nl +:+ e +:+ nl +:+ "```" +:+ nl +:+ nl +:+
  "Please wait a minute before trying again.".

Definition assistant_text (text : string) : string :=
  "📝 *Assistant's response:*" +:+ nl +:+ text.

Definition tool_use_text (tool_name tool_input : string) : string :=
  "🔧 *Using tool `" +:+ tool_name +:+ "` with input:*" +:+ nl +:+
  "```" +:+ nl +:+ tool_input +:+ nl +:+ "```".

Definition tool_output_text (o : string) : string :=
  "📄 *Tool output:*" +:+ nl +:+ "```" +:+ nl +:+ o +:+ nl +:+ "```".

Definition screenshot_caption : string :=
  "📷 *Screenshot captured by the tool*".

Definition tool_error_text (e : string) : string :=
  "❗️ *Tool error:*" +:+ nl +:+ "```" +:+ nl +:+ e +:+ nl +:+ "```".

Definition start_text : string :=
  "Hello! I'm your Computer Use assistant." +:+ nl +:+ nl +:+ WARNING_TEXT
  +:+ nl +:+ nl +:+ "Send me a message to start interacting.".

Definition reset_text : string :=
  "Conversation reset. Send a new message to start fresh.".

Definition stopped_text : string := "🛑 Processing stopped.".

Definition nothing_to_stop_text : string := "No active processing to stop.".

(** [datetime.isoformat()] of a naive datetime: the fraction is printed
    only when the microsecond is not zero. *)
Definition zfill (width : nat) (s : string) : string :=
  Nat.iter (width - String.length s) (String "0"%char) s.

Definition isoformat (t : datetime) : string :=
  zfill 4 (pretty (year t)) +:+ "-" +:+ zfill 2 (pretty (month t)) +:+ "-"
  +:+ zfill 2 (pretty (day t)) +:+ "T" +:+ zfill 2 (pretty (hour t)) +:+ ":"
  +:+ zfill 2 (pretty (minute t)) +:+ ":" +:+ zfill 2 (pretty (second t))
  +:+ (if decide (microsecond t = 0%N) then ""
       else "." +:+ zfill 6 (pretty (microsecond t))).

(** ** The handlers *)

Section Handlers.

(** Line 45: the allow-listed identity, [None] when the environment gives
    none. *)
Variable TELEGRAM_USER_ID : option string.

(** [base64.b64decode]: the decoded bytes, or [None] where it raises. *)
Variable b64decode : string -> option string.

(** The guard at the head of every handler:
    [not TELEGRAM_USER_ID or str(user_id) != TELEGRAM_USER_ID]. *)
Definition unauthorized (user_id : Z) : bool :=
  negb (truthy TELEGRAM_USER_ID)
  || negb (bool_decide (Some (pretty user_id) = TELEGRAM_USER_ID)).

(** Lines 72-79: create the state of a user who has none. *)
Definition init_user_state (user_id : Z) (w : world) : world :=
  match user_states w !! user_id with
  | Some _ => w
  | None =>
      let l := length (lists w) in
      let d := length (dicts w) in
      set_user_states (<[user_id := d]> (user_states w))
        (alloc_dict (mkState l ∅ ∅ 10 "") (alloc_list [] w))
  end.

Definition user_entry (message_text : string) : message :=
  Message "user" [text_block message_text].

(** [process_message] up to the [await] of the sampling loop (lines
    105-126): append the entry to the list in place and hand that list to
    the loop. *)
Definition process_message_begin (state : nat) (message_text : string)
    (w : world) : option (world * nat) :=
  st ← dicts w !! state;
  h ← lists w !! messages st;
  Some (set_list (messages st) (h ++ [user_entry message_text]) w,
        messages st).

(** The inner [try] of [process_message] once the loop has ended (lines
    114-137). *)
Definition process_message_inner (tk : task) (o : loop_outcome) (w : world)
    : option (world * result) :=
  match o with
  | returned r =>
      st ← dicts w !! t_state tk;
      let w :=
        match r with
        | same_list => set_dict (t_state tk) (set_messages (t_messages tk) st) w
        | new_list h =>
            set_dict (t_state tk) (set_messages (length (lists w)) st)
                     (alloc_list h w)
        end in
      Some (send (Delete (t_status_message tk)) w, Normal)
  | raised CancelledError =>
      st ← dicts w !! t_state tk;
      h ← lists w !! messages st;
      let w :=
        match h with
        | [] => w
        | _ :: _ => set_list (messages st) (removelast h) w
        end in
      let w := send (EditText (t_status_message tk) cancelled_text None) w in
      let w :=
        set_dict (t_state tk) (set_messages (length (lists w)) st)
                 (alloc_list [] w) in
      Some (w, Raise CancelledError)
  | raised e => Some (w, Raise e)
  end.

(** The outer [try] (lines 105, 138-146): [RateLimitError] first, then any
    other [Exception]; what is not an [Exception] passes through. *)
Definition process_message_end (tk : task) (o : loop_outcome) (w : world)
    : option (world * result) :=
  '(w, r) ← process_message_inner tk o w;
  match r with
  | Normal => Some (w, Normal)
  | Raise (RateLimitError e) =>
      Some (send (EditText (t_status_message tk) (rate_limit_text e) Markdown) w,
            Normal)
  | Raise e =>
      if is_Exception e then
        Some (send (EditText (t_status_message tk)
                             (generic_error_text (str_exc e)) Markdown) w,
              Normal)
      else Some (w, Raise e)
  end.

(** [handle_message] up to [await task] (lines 58-95), the task running
    until it is suspended in the loop. *)
Definition handle_message (update : Update) (w : world) : option world :=
  let user_id := effective_user_id update in
  if unauthorized user_id then Some w
  else
    let w := init_user_state user_id w in
    state ← user_states w !! user_id;
    let status_message := length (sent w) in
    let w := send (ReplyText update processing_text None) w in
    let task := length (tasks w) in
    let w := set_active_tasks (<[user_id := task]> (active_tasks w)) w in
    '(w, passed) ← process_message_begin state (message_text update) w;
    Some (set_tasks (tasks w ++ [mkTask update state status_message passed
                                        false None None]) w).

(** [handle_message] after [await task] (lines 96-101): the [except] clause
    for an [Exception] of the task, and the [finally] clause. *)
Definition handle_message_end (t : nat) (tk : task) (r : result) (w : world)
    : world :=
  let user_id := effective_user_id (t_update tk) in
  let '(w, h) :=
    match r with
    | Normal => (w, Normal)
    | Raise e =>
        if is_Exception e then
          (send (EditText (t_status_message tk)
                          (generic_error_text (str_exc e)) Markdown) w, Normal)
        else (w, Raise e)
    end in
  let w :=
    match active_tasks w !! user_id with
    | Some _ => set_active_tasks (delete user_id (active_tasks w)) w
    | None => w
    end in
  set_tasks (<[t := set_finished r h tk]> (tasks w)) w.

(** The loop of task [t] ends with [o]: the rest of [process_message], then
    the rest of the handler that awaits the task. *)
Definition finish (t : nat) (tk : task) (o : loop_outcome) (w : world)
    : option world :=
  '(w, r) ← process_message_end tk o w;
  Some (handle_message_end t tk r w).

(** Lines 148-160. *)
Definition output_callback (update : Update) (c : BetaContentBlockParam)
    (w : world) : world :=
  match c with
  | text_block text => send (ReplyText update (assistant_text text) Markdown) w
  | tool_use_block _ tool_name tool_input =>
      send (ReplyText update (tool_use_text tool_name tool_input) Markdown) w
  | other_block _ => w
  end.

(** Lines 162-180.  The result is recorded first; the three [if]s follow.
    A payload that does not decode raises before the photo is sent, and the
    exception goes back into the loop that called. *)
Definition tool_output_callback (update : Update) (state : nat)
    (tool_output : ToolResult) (tool_use_id : string) (w : world)
    : option (world * result) :=
  st ← dicts w !! state;
  let w :=
    set_dict state (set_tools (<[tool_use_id := tool_output]> (tools st)) st) w in
  let w :=
    if truthy (output tool_output) then
      send (ReplyText update (tool_output_text (default "" (output tool_output)))
                      Markdown) w
    else w in
  let send_error w :=
    if truthy (error tool_output) then
      send (ReplyText update (tool_error_text (default "" (error tool_output)))
                      Markdown) w
    else w in
  if truthy (base64_image tool_output) then
    match b64decode (default "" (base64_image tool_output)) with
    | Some image_bytes =>
        let w := send (ReplyPhoto update image_bytes) w in
        let w := send (ReplyText update screenshot_caption Markdown) w in
        Some (send_error w, Normal)
    | None => Some (w, Raise (OtherException "binascii.Error"))
    end
  else Some (send_error w, Normal).

(** Lines 182-211: the pair is stored under the timestamp; the rest of the
    body only logs. *)
Definition api_response_callback (state : nat) (req : request)
    (response : option response_object) (err : option exc) (now : datetime)
    (w : world) : option world :=
  st ← dicts w !! state;
  let response_id := isoformat now in
  Some (set_dict state
          (set_responses (<[response_id := (req, response)]> (responses st)) st)
          w).

(** Lines 213-224. *)
Definition start (update : Update) (w : world) : world :=
  if unauthorized (effective_user_id update) then w
  else send (ReplyText update start_text None) w.

(** Lines 226-237. *)
Definition reset (update : Update) (w : world) : world :=
  let user_id := effective_user_id update in
  if unauthorized user_id then w
  else
    let w :=
      match user_states w !! user_id with
      | Some _ => set_user_states (delete user_id (user_states w)) w
      | None => w
      end in
    send (ReplyText update reset_text None) w.

(** [task.cancel()]: a request, which a finished task ignores. *)
Definition cancel (t : nat) (w : world) : option world :=
  tk ← tasks w !! t;
  match t_result tk with
  | Some _ => Some w
  | None => Some (set_tasks (<[t := set_cancel_requested tk]> (tasks w)) w)
  end.

(** Lines 239-253. *)
Definition stop (update : Update) (w : world) : option world :=
  let user_id := effective_user_id update in
  if unauthorized user_id then Some w
  else
    match active_tasks w !! user_id with
    | Some task =>
        w ← cancel task w;
        Some (send (ReplyText update stopped_text None) w)
    | None => Some (send (ReplyText update nothing_to_stop_text None) w)
    end.

(** ** Events *)

(** Inbound updates as dispatched by the handlers registered in [main], and
    what the sampling loop of a suspended task does. *)
Inductive event :=
  | text_message (update : Update)
  | start_command (update : Update)
  | reset_command (update : Update)
  | stop_command (update : Update)
  | loop_output (t : nat) (c : BetaContentBlockParam)
  | loop_tool_output (t : nat) (tool_output : ToolResult) (tool_use_id : string)
  | loop_api_response (t : nat) (req : request)
      (response : option response_object) (err : option exc) (now : datetime)
  | loop_mutates (t : nat) (msgs : list message)
  | loop_ends (t : nat) (o : loop_outcome).

(** The task [t] if it is suspended in its loop. *)
Definition suspended (w : world) (t : nat) : option task :=
  tk ← tasks w !! t;
  match t_result tk with
  | None => Some tk
  | Some _ => None
  end.

(** One event; [None] when the event cannot occur in [w] (no such suspended
    task) or a reference dangles. *)
Definition step (w : world) (e : event) : option world :=
  match e with
  | text_message update => handle_message update w
  | start_command update => Some (start update w)
  | reset_command update => Some (reset update w)
  | stop_command update => stop update w
  | loop_output t c =>
      tk ← suspended w t; Some (output_callback (t_update tk) c w)
  | loop_tool_output t tool_output tool_use_id =>
      tk ← suspended w t;
      fst <$> tool_output_callback (t_update tk) (t_state tk) tool_output
                tool_use_id w
  | loop_api_response t req response err now =>
      tk ← suspended w t;
      api_response_callback (t_state tk) req response err now w
  | loop_mutates t msgs =>
      tk ← suspended w t;
      _ ← lists w !! t_messages tk;
      Some (set_list (t_messages tk) msgs w)
  | loop_ends t o => tk ← suspended w t; finish t tk o w
  end.

Fixpoint run (w : world) (es : list event) : option world :=
  match es with
  | [] => Some w
  | e :: es => w ← step w e; run w es
  end.

End Handlers.

(** ** Well-formed stores and status messages *)

(** A call that settles the status message [m]: an edit or the deletion. *)
Definition is_terminal (m : nat) (c : bot_call) : bool :=
  match c with
  | EditText m' _ _ | Delete m' => bool_decide (m' = m)
  | _ => false
  end.

Definition terminal_calls (m : nat) (log : list bot_call) : list bot_call :=
  List.filter (is_terminal m) log.

Arguments terminal_calls : simpl never.

(** What every reachable world satisfies: references resolve, a registered
    task is suspended and belongs to the user it is registered for, status
    messages are not shared between tasks, and a task's status message was
    settled once if the task has finished and not at all otherwise. *)
Record invariant (w : world) : Prop := {
  inv_user_states : ∀ u d, user_states w !! u = Some d → d < length (dicts w);
  inv_dicts : ∀ d st, dicts w !! d = Some st → messages st < length (lists w);
  inv_tasks : ∀ t tk, tasks w !! t = Some tk →
    t_state tk < length (dicts w) ∧ t_messages tk < length (lists w) ∧
    t_status_message tk < length (sent w);
  inv_active : ∀ u t, active_tasks w !! u = Some t →
    ∃ tk, tasks w !! t = Some tk ∧ t_result tk = None ∧
          effective_user_id (t_update tk) = u;
  inv_sent : ∀ m c, c ∈ sent w → is_terminal m c = true → m < length (sent w);
  inv_status : ∀ t1 t2 tk1 tk2, tasks w !! t1 = Some tk1 → tasks w !! t2 = Some tk2 →
    t_status_message tk1 = t_status_message tk2 → t1 = t2;
  inv_count : ∀ t tk, tasks w !! t = Some tk →
    length (terminal_calls (t_status_message tk) (sent w)) =
    match t_result tk with None => 0 | Some _ => 1 end
}.

(** The result of [process_message] for each way the loop can end, and the
    one call it makes on the status message. *)
Definition task_result (o : loop_outcome) : result :=
  match o with
  | raised CancelledError => Raise CancelledError
  | _ => Normal
  end.

Definition terminal_call (status_message : nat) (o : loop_outcome) : bot_call :=
  match o with
  | returned _ => Delete status_message
  | raised CancelledError => EditText status_message cancelled_text None
  | raised (RateLimitError e) =>
      EditText status_message (rate_limit_text e) Markdown
  | raised (OtherException e) =>
      EditText status_message (generic_error_text e) Markdown
  end.

(** The history the loop hands back. *)
Definition returned_history (r : loop_return) (passed : list message)
  : list message :=
  match r with
  | same_list => passed
  | new_list h => h
  end.

(** A call that settles no status message. *)
Definition reply (c : bot_call) : Prop := ∀ m, is_terminal m c = false.

(** Events that leave every stored history in place or extend it: all but
    the loop rewriting its list and the end of a loop. *)
Definition quiet (e : event) : bool :=
  match e with
  | loop_mutates _ _ | loop_ends _ _ => false
  | _ => true
  end.

Definition is_text_message (e : event) : bool :=
  match e with text_message _ => true | _ => false end.

(** Two records of the same task: the arguments never change. *)
Definition same_task (tk tk' : task) : Prop :=
  t_update tk' = t_update tk ∧ t_state tk' = t_state tk ∧
  t_status_message tk' = t_status_message tk ∧ t_messages tk' = t_messages tk.

(** ** A sample deployment *)

(** The bot configured for user 42, and a stand-in for the decoder that
    rejects one payload and returns the others as they are. *)
Definition sample_user_id : option string := Some "42".

Definition sample_b64decode (s : string) : option string :=
  if bool_decide (s = "!") then None else Some s.

Definition sample_step : world → event → option world :=
  step sample_user_id sample_b64decode.

Definition sample_run : world → list event → option world :=
  run sample_user_id sample_b64decode.

Definition alice (text : string) : Update := mkUpdate 42 text.

Definition mallory (text : string) : Update := mkUpdate 7 text.

(** One completed turn, then a second message whose loop is running. *)
Definition sample_events : list event :=
  [text_message (alice "hello");
   loop_output 0 (text_block "hi");
   loop_ends 0 (returned (new_list [user_entry "hello";
                                    Message "assistant" [text_block "hi"]]));
   text_message (alice "take a screenshot")].

Definition sample_world : world :=
  default initial (sample_run initial sample_events).

Definition sample_task : task :=
  mkTask (alice "take a screenshot") 0 3 1 false None None.

Definition sample_now : datetime := mkDatetime 2024 11 3 1 30 0 0.

(** The same run up to the end of the first turn. *)
Definition sample_idle : world :=
  default initial (sample_run initial (take 3 sample_events)).

Definition sample_state : user_state := mkState 1 ∅ ∅ 10 "".



Definition sample_tool_result : ToolResult :=
  mkToolResult (Some "saved") (Some "low disk space") (Some "aGk=").

(** ** Who is answered, and what belongs to whom *)

(** The update a call answers, for the calls that answer one. *)
Definition recipient (c : bot_call) : option Update :=
  match c with
  | ReplyText update _ _ | ReplyPhoto update _ => Some update
  | _ => None
  end.

(** Everything the module holds or sends concerns a sender that passes the
    guard of the handlers. *)
Record authorized_only (TELEGRAM_USER_ID : option string) (w : world)
    : Prop := {
  ao_sent : ∀ c update, c ∈ sent w → recipient c = Some update →
    unauthorized TELEGRAM_USER_ID (effective_user_id update) = false;
  ao_tasks : ∀ t tk, tasks w !! t = Some tk →
    unauthorized TELEGRAM_USER_ID (effective_user_id (t_update tk)) = false;
  ao_user_states : ∀ u d, user_states w !! u = Some d →
    unauthorized TELEGRAM_USER_ID u = false;
  ao_active_tasks : ∀ u t, active_tasks w !! u = Some t →
    unauthorized TELEGRAM_USER_ID u = false
}.

(** No list is shared between two state dicts: a list belongs to the dict
    that references it, and the list a task passed to its loop belongs to
    the dict the task holds. *)
Record separated (w : world) : Prop := {
  sep_dicts : ∀ d1 d2 st1 st2,
    dicts w !! d1 = Some st1 → dicts w !! d2 = Some st2 →
    messages st1 = messages st2 → d1 = d2;
  sep_task_dict : ∀ t tk d st,
    tasks w !! t = Some tk → dicts w !! d = Some st →
    t_messages tk = messages st → t_state tk = d;
  sep_tasks : ∀ t1 t2 tk1 tk2,
    tasks w !! t1 = Some tk1 → tasks w !! t2 = Some tk2 →
    t_messages tk1 = t_messages tk2 → t_state tk1 = t_state tk2
}.

(** The task whose loop an event belongs to. *)
Definition loop_task (e : event) : option nat :=
  match e with
  | loop_output t _ | loop_tool_output t _ _ | loop_api_response t _ _ _ _
  | loop_mutates t _ | loop_ends t _ => Some t
  | _ => None
  end.

(** [st'] is a later content of the dict [st]: no tool result and no logged
    response has been dropped, and the tunables are the same. *)
Definition keeps (st st' : user_state) : Prop :=
  (∀ k, is_Some (tools st !! k) → is_Some (tools st' !! k)) ∧
  (∀ k, is_Some (responses st !! k) → is_Some (responses st' !! k)) ∧
  only_n_most_recent_images st' = only_n_most_recent_images st ∧
  custom_system_prompt st' = custom_system_prompt st.

Definition is_reset (e : event) : bool :=
  match e with reset_command _ => true | _ => false end.

(** A second message while the loop of the first is still running, and a
    reset followed by a new message while the old loop is still running. *)
Definition sample_overlap : world :=
  default initial
    (sample_run sample_world [text_message (alice "never mind")]).

Definition sample_reset_events : list event :=
  sample_events ++ [reset_command (alice "/reset");
                    text_message (alice "start over")].

Definition sample_after_reset : world :=
  default initial (sample_run initial sample_reset_events).


(** * Properties *)

Section Properties.
Context (TELEGRAM_USER_ID : option string) (b64decode : string -> option string).
Local Abbreviation Step := (step TELEGRAM_USER_ID b64decode).
Local Abbreviation Run := (run TELEGRAM_USER_ID b64decode).
Local Abbreviation Unauthorized := (unauthorized TELEGRAM_USER_ID).

Ltac unfold_world :=
  unfold send, set_list, alloc_list, set_dict, alloc_dict, set_user_states,
    set_active_tasks, set_tasks; cbn.

Lemma invariant_initial : invariant initial.
Proof. split; cbn; intros; try done. set_solver. Qed.

Lemma terminal_calls_app m l1 l2 :
  terminal_calls m (l1 ++ l2) = terminal_calls m l1 ++ terminal_calls m l2.
Proof. apply List.filter_app. Qed.

Lemma length_terminal_calls_snoc m l c :
  length (terminal_calls m (l ++ [c])) =
  length (terminal_calls m l) + (if is_terminal m c then 1 else 0).
Proof.
  rewrite terminal_calls_app, length_app. unfold terminal_calls at 2. cbn.
  by destruct (is_terminal m c).
Qed.

Lemma invariant_send c w :
  (∀ m, is_terminal m c = false) → invariant w → invariant (send c w).
Proof.
  intros Hc [I1 I2 I3 I4 I5 I6 I7]. split; cbn; auto.
  - intros t tk H. destruct (I3 t tk H) as (?&?&?). rewrite length_app. cbn. lia.
  - intros m c' [H| ->%list_elem_of_singleton]%elem_of_app Ht.
    + rewrite length_app. specialize (I5 _ _ H Ht). lia.
    + rewrite Hc in Ht. done.
  - intros t tk H. rewrite length_terminal_calls_snoc, Hc, (I7 t tk H). lia.
Qed.

Lemma invariant_set_list l h w : invariant w → invariant (set_list l h w).
Proof.
  intros [I1 I2 I3 I4 I5 I6 I7]. split; cbn; auto.
  - intros. rewrite length_insert. eauto.
  - intros. rewrite length_insert. eauto.
Qed.

Lemma invariant_alloc_list h w : invariant w → invariant (alloc_list h w).
Proof.
  intros [I1 I2 I3 I4 I5 I6 I7]. split; cbn; auto.
  - intros d st H. rewrite length_app. specialize (I2 d st H). lia.
  - intros t tk H. rewrite length_app. specialize (I3 t tk H). lia.
Qed.

Lemma invariant_set_dict d st w :
  messages st < length (lists w) → invariant w → invariant (set_dict d st w).
Proof.
  intros Hst [I1 I2 I3 I4 I5 I6 I7]. split; cbn; auto.
  - intros. rewrite length_insert. eauto.
  - intros d' st' [[-> [-> _]]|[_ H]]%list_lookup_insert_Some; eauto.
  - intros. rewrite length_insert. eauto.
Qed.

Lemma invariant_alloc_dict st w :
  messages st < length (lists w) → invariant w → invariant (alloc_dict st w).
Proof.
  intros Hst [I1 I2 I3 I4 I5 I6 I7]. split; cbn; auto.
  - intros u d H. rewrite length_app. specialize (I1 u d H). lia.
  - intros d' st' [H|[_ H]]%lookup_app_Some; eauto.
    destruct (d' - length (dicts w)) as [|?]; cbn in H; [|done]. by injection H as <-.
  - intros t tk H. rewrite length_app. specialize (I3 t tk H). lia.
Qed.

Lemma invariant_set_user_states m w :
  (∀ u d, m !! u = Some d → d < length (dicts w)) →
  invariant w → invariant (set_user_states m w).
Proof. intros Hm [I1 I2 I3 I4 I5 I6 I7]. split; cbn; auto. Qed.

Lemma invariant_init_user_state user_id w :
  invariant w → invariant (init_user_state user_id w).
Proof.
  intros I. unfold init_user_state. destruct (user_states w !! user_id) eqn:E; [done|].
  apply invariant_set_user_states.
  - cbn. intros u d [[-> <-]|[_ H]]%lookup_insert_Some; rewrite length_app; cbn; [lia|].
    destruct I as [I1 _ _ _ _ _ _]. specialize (I1 u d H). lia.
  - apply invariant_alloc_dict; [cbn; rewrite length_app; cbn; lia|].
    by apply invariant_alloc_list.
Qed.

(** The state of the sender once [init_user_state] has run. *)
Lemma init_user_state_lookup user_id w :
  invariant w →
  ∃ d st h, user_states (init_user_state user_id w) !! user_id = Some d ∧
    dicts (init_user_state user_id w) !! d = Some st ∧
    lists (init_user_state user_id w) !! messages st = Some h ∧
    h = default [] (user_history w user_id) ∧
    match user_states w !! user_id with
    | Some d' => d = d' ∧ init_user_state user_id w = w
    | None => d = length (dicts w) ∧ st = mkState (length (lists w)) ∅ ∅ 10 "" 
    end.
Proof.
  intros I. unfold init_user_state, user_history, history.
  destruct (user_states w !! user_id) as [d|] eqn:E; cbn.
  - destruct I as [I1 I2 _ _ _ _ _].
    destruct (lookup_lt_is_Some_2 (dicts w) d (I1 _ _ E)) as [st Hst].
    destruct (lookup_lt_is_Some_2 (lists w) _ (I2 _ _ Hst)) as [h Hh].
    exists d, st, h. rewrite Hst. cbn. rewrite Hh. done.
  - eexists _, _, _. rewrite lookup_insert_eq. split; [done|].
    rewrite lookup_app_r, Nat.sub_diag by done. cbn. split; [done|].
    rewrite lookup_app_r, Nat.sub_diag by done. done.
Qed.


Lemma invariant_set_active_tasks m w :
  (∀ u t, m !! u = Some t → active_tasks w !! u = Some t) →
  invariant w → invariant (set_active_tasks m w).
Proof. intros Hm [I1 I2 I3 I4 I5 I6 I7]. split; cbn; auto. Qed.

Lemma set_active_tasks_id w : set_active_tasks (active_tasks w) w = w.
Proof. by destruct w. Qed.

(** Replacing a task record by one with the same arguments and result. *)
Lemma invariant_update_task t tk tk' w :
  tasks w !! t = Some tk →
  t_update tk' = t_update tk → t_state tk' = t_state tk →
  t_status_message tk' = t_status_message tk → t_messages tk' = t_messages tk →
  t_result tk' = t_result tk →
  invariant w → invariant (set_tasks (<[t := tk']> (tasks w)) w).
Proof.
  intros Ht E1 E2 E3 E4 E5 [I1 I2 I3 I4 I5 I6 I7]. split; cbn; auto.
  - intros t0 tk0 [[-> [<- _]]|[_ H]]%list_lookup_insert_Some; eauto.
    rewrite E2, E3, E4. eauto.
  - intros u t0 H. destruct (I4 u t0 H) as (tk0 & H0 & R0 & U0).
    destruct (decide (t0 = t)) as [->|Hne].
    + exists tk'. rewrite list_lookup_insert_eq by eauto using lookup_lt_Some.
      simplify_eq. rewrite E5, E1. done.
    + exists tk0. by rewrite list_lookup_insert_ne.
  - intros t1 t2 tk1 tk2 H1 H2 E.
    assert (∀ t0 tk0, <[t:=tk']> (tasks w) !! t0 = Some tk0 →
              ∃ tk0', tasks w !! t0 = Some tk0' ∧
                      t_status_message tk0' = t_status_message tk0) as Hold.
    { intros t0 tk0 [[-> [<- _]]|[_ H]]%list_lookup_insert_Some; eauto. }
    destruct (Hold _ _ H1) as (tk1' & H1' & S1), (Hold _ _ H2) as (tk2' & H2' & S2).
    eapply I6; eauto. congruence.
  - intros t0 tk0 [[-> [<- _]]|[_ H]]%list_lookup_insert_Some; eauto.
    rewrite E3, E5. eauto.
Qed.

(** A new task, suspended in its loop and registered for its user. *)
Lemma invariant_register tk w :
  t_state tk < length (dicts w) → t_messages tk < length (lists w) →
  t_status_message tk < length (sent w) →
  (∀ t' tk', tasks w !! t' = Some tk' →
             t_status_message tk' ≠ t_status_message tk) →
  terminal_calls (t_status_message tk) (sent w) = [] →
  t_result tk = None →
  invariant w →
  invariant (mkWorld (user_states w)
               (<[effective_user_id (t_update tk) := length (tasks w)]>
                  (active_tasks w))
               (dicts w) (lists w) (tasks w ++ [tk]) (sent w)).
Proof.
  intros B1 B2 B3 Hfresh Hnone Hres [I1 I2 I3 I4 I5 I6 I7].
  assert (∀ t0 tk0, (tasks w ++ [tk]) !! t0 = Some tk0 →
            tasks w !! t0 = Some tk0 ∨ (t0 = length (tasks w) ∧ tk0 = tk)) as Hcase.
  { intros t0 tk0 [H|[Hge H]]%lookup_app_Some; [by left|right].
    destruct (t0 - length (tasks w)) as [|n] eqn:E; cbn in H; [|done].
    split; [lia|congruence]. }
  split; cbn; auto.
  - intros t0 tk0 [H|[-> ->]]%Hcase; eauto.
  - intros u t0 [[<- <-]|[_ H]]%lookup_insert_Some.
    + exists tk. rewrite lookup_app_r, Nat.sub_diag by done. done.
    + destruct (I4 u t0 H) as (tk0 & H0 & ?). exists tk0.
      rewrite lookup_app_l by eauto using lookup_lt_Some. done.
  - intros t1 t2 tk1 tk2 [H1|[-> ->]]%Hcase [H2|[-> ->]]%Hcase E; eauto.
    + by destruct (Hfresh _ _ H1).
    + by destruct (Hfresh _ _ H2).
  - intros t0 tk0 [H|[-> ->]]%Hcase; eauto.
    rewrite Hnone, Hres. done.
Qed.

(** A suspended task finishes: the one call on its status message, its
    result, and the [finally] clause of the handler. *)
Lemma invariant_terminate t tk c r h w :
  tasks w !! t = Some tk → t_result tk = None →
  (∀ m, is_terminal m c = bool_decide (t_status_message tk = m)) →
  invariant w →
  invariant (mkWorld (user_states w)
               (delete (effective_user_id (t_update tk)) (active_tasks w))
               (dicts w) (lists w) (<[t := set_finished r h tk]> (tasks w))
               (sent w ++ [c])).
Proof.
  intros Ht Hres Hc [I1 I2 I3 I4 I5 I6 I7].
  assert (∀ t0 tk0, <[t:=set_finished r h tk]> (tasks w) !! t0 = Some tk0 →
            (t0 = t ∧ tk0 = set_finished r h tk) ∨
            (t0 ≠ t ∧ tasks w !! t0 = Some tk0)) as Hcase.
  { intros t0 tk0 [[-> [<- _]]|[? H]]%list_lookup_insert_Some; auto. }
  split; cbn; auto.
  - intros t0 tk0 [[-> ->]|[_ H]]%Hcase; rewrite length_app; cbn.
    + destruct (I3 _ _ Ht) as (?&?&?). lia.
    + destruct (I3 _ _ H) as (?&?&?). lia.
  - intros u t0 [Hu H]%lookup_delete_Some.
    destruct (I4 u t0 H) as (tk0 & H0 & R0 & U0).
    exists tk0. rewrite list_lookup_insert_ne; [done|].
    intros <-. simplify_eq.
  - intros m c' [H| ->%list_elem_of_singleton]%elem_of_app Hm; rewrite length_app; cbn.
    + specialize (I5 _ _ H Hm). lia.
    + rewrite Hc in Hm. apply bool_decide_eq_true in Hm as <-.
      destruct (I3 _ _ Ht) as (?&?&?). lia.
  - intros t1 t2 tk1 tk2 [[-> ->]|[N1 H1]]%Hcase [[-> ->]|[N2 H2]]%Hcase E; eauto.
  - intros t0 tk0 [[-> ->]|[N H]]%Hcase;
      rewrite length_terminal_calls_snoc, Hc; cbn.
    + rewrite bool_decide_eq_true_2 by done.
      rewrite (I7 _ _ Ht), Hres. done.
    + rewrite bool_decide_eq_false_2, (I7 _ _ H); [lia|].
      intros E. apply N. symmetry. eapply I6; eauto.
Qed.


Lemma init_user_state_frame user_id w :
  active_tasks (init_user_state user_id w) = active_tasks w ∧
  tasks (init_user_state user_id w) = tasks w ∧
  sent (init_user_state user_id w) = sent w.
Proof. unfold init_user_state. by destruct (user_states w !! user_id). Qed.

(** What [handle_message] does for the allow-listed sender. *)
Lemma handle_message_authorized update w :
  Unauthorized (effective_user_id update) = false → invariant w →
  let user_id := effective_user_id update in
  let w0 := init_user_state user_id w in
  ∃ d st h,
    user_states w0 !! user_id = Some d ∧ dicts w0 !! d = Some st ∧
    lists w0 !! messages st = Some h ∧
    handle_message TELEGRAM_USER_ID update w =
      Some (mkWorld (user_states w0)
              (<[user_id := length (tasks w)]> (active_tasks w))
              (dicts w0)
              (<[messages st := h ++ [user_entry (message_text update)]]> (lists w0))
              (tasks w ++ [mkTask update d (length (sent w)) (messages st)
                                  false None None])
              (sent w ++ [ReplyText update processing_text None])).
Proof.
  intros Hauth I user_id w0.
  destruct (init_user_state_lookup user_id w I) as (d & st & h & Hd & Hst & Hh & _).
  destruct (init_user_state_frame user_id w) as (Ea & Et & Es).
  exists d, st, h. repeat split; try done.
  subst user_id w0. unfold handle_message. rewrite Hauth. cbv zeta. rewrite Hd. cbn.
  unfold process_message_begin. cbn. rewrite Hst. cbn. rewrite Hh. cbn.
  unfold_world. rewrite Ea, Et, Es. done.
Qed.

Lemma terminal_calls_fresh m log :
  (∀ m' c, c ∈ log → is_terminal m' c = true → m' < m) →
  terminal_calls m log = [].
Proof.
  intros H. unfold terminal_calls. induction log as [|c log IH]; [done|]. cbn.
  destruct (is_terminal m c) eqn:E.
  - assert (m < m); [|lia]. apply (H m c); [left|done].
  - apply IH. intros m' c' Hc'. apply H. by right.
Qed.

Lemma handle_message_invariant update w w' :
  handle_message TELEGRAM_USER_ID update w = Some w' → invariant w → invariant w'.
Proof.
  intros Hw I. destruct (Unauthorized (effective_user_id update)) eqn:Hauth.
  { unfold handle_message in Hw. rewrite Hauth in Hw. by simplify_eq. }
  destruct (handle_message_authorized update w Hauth I) as (d & st & h & Hd & Hst & Hh & E).
  rewrite E in Hw. injection Hw as <-.
  destruct (init_user_state_frame (effective_user_id update) w) as (Ea & Et & Es).
  pose proof (invariant_init_user_state (effective_user_id update) w I) as I0.
  set (w0 := init_user_state (effective_user_id update) w) in *.
  set (tk := mkTask update d (length (sent w)) (messages st) false None None).
  pose proof (invariant_register tk
    (set_list (messages st) (h ++ [user_entry (message_text update)])
       (send (ReplyText update processing_text None) w0))) as R.
  cbn in R. rewrite Ea, Et, Es in R. apply R; clear R.
  - eauto using lookup_lt_Some.
  - rewrite length_insert. eauto using lookup_lt_Some.
  - rewrite length_app. cbn. lia.
  - intros t' tk' Ht'. destruct I as [_ _ I3 _ _ _ _].
    destruct (I3 _ _ Ht') as (?&?&?). lia.
  - apply terminal_calls_fresh.
    intros m' c [H| ->%list_elem_of_singleton]%elem_of_app Hm; [|done].
    destruct I as [_ _ _ _ I5 _ _]. eauto.
  - done.
  - apply invariant_set_list, invariant_send; done.
Qed.


Lemma suspended_Some w t tk :
  suspended w t = Some tk ↔ tasks w !! t = Some tk ∧ t_result tk = None.
Proof.
  unfold suspended. destruct (tasks w !! t) as [tk'|]; cbn.
  - destruct (t_result tk') eqn:E; split.
    + done.
    + intros [[= <-] ?]. congruence.
    + by intros [= <-].
    + by intros [[= <-] _].
  - split; [done|]. by intros [? _].
Qed.

Lemma finally_delete u w :
  match active_tasks w !! u with
  | Some _ => set_active_tasks (delete u (active_tasks w)) w
  | None => w
  end = set_active_tasks (delete u (active_tasks w)) w.
Proof.
  destruct (active_tasks w !! u) eqn:E; [done|].
  rewrite delete_id by done. by rewrite set_active_tasks_id.
Qed.

(** The handler after the task: no [Exception] reaches it from
    [process_message], so only the [finally] clause acts. *)
Lemma handle_message_end_spec t tk r w :
  match r with Raise e => is_Exception e = false | Normal => True end →
  handle_message_end t tk r w =
    mkWorld (user_states w)
      (delete (effective_user_id (t_update tk)) (active_tasks w))
      (dicts w) (lists w) (<[t := set_finished r r tk]> (tasks w)) (sent w).
Proof.
  intros Hr. unfold handle_message_end.
  destruct r as [|e]; [|rewrite Hr]; by rewrite finally_delete.
Qed.

Lemma is_terminal_terminal_call m m' o :
  is_terminal m' (terminal_call m o) = bool_decide (m = m').
Proof. by destruct o as [?|[| |]]. Qed.

(** The references of a task resolve. *)
Lemma task_store w t tk :
  invariant w → tasks w !! t = Some tk →
  ∃ st h hp, dicts w !! t_state tk = Some st ∧
    lists w !! messages st = Some h ∧ lists w !! t_messages tk = Some hp.
Proof.
  intros [_ I2 I3 _ _ _ _] Ht. destruct (I3 _ _ Ht) as (B1 & B2 & _).
  destruct (lookup_lt_is_Some_2 _ _ B1) as [st Hst].
  destruct (lookup_lt_is_Some_2 _ _ (I2 _ _ Hst)) as [h Hh].
  destruct (lookup_lt_is_Some_2 _ _ B2) as [hp Hhp]. eauto 10.
Qed.

Lemma set_list_id l h w : lists w !! l = Some h → set_list l h w = w.
Proof. intros H. unfold set_list. rewrite list_insert_id by done. by destruct w. Qed.

(** [if state["messages"]: state["messages"].pop()] *)
Lemma pop_spec l h w :
  lists w !! l = Some h →
  match h with [] => w | _ :: _ => set_list l (removelast h) w end
  = set_list l (removelast h) w.
Proof. intros H. destruct h; [|done]. by rewrite set_list_id. Qed.

(** What happens when the loop of a suspended task ends. *)
Lemma finish_spec t tk o w :
  invariant w → suspended w t = Some tk →
  ∃ w' st h hp,
    dicts w !! t_state tk = Some st ∧ lists w !! messages st = Some h ∧
    lists w !! t_messages tk = Some hp ∧
    finish t tk o w = Some w' ∧ invariant w' ∧
    user_states w' = user_states w ∧
    active_tasks w' = delete (effective_user_id (t_update tk)) (active_tasks w) ∧
    tasks w' = <[t := set_finished (task_result o) (task_result o) tk]> (tasks w) ∧
    sent w' = sent w ++ [terminal_call (t_status_message tk) o] ∧
    history w' (t_state tk) =
      Some match o with
           | returned r => returned_history r hp
           | raised CancelledError => []
           | raised _ => h
           end ∧
    match o with
    | returned _ | raised CancelledError => True
    | raised _ => dicts w' = dicts w ∧ lists w' = lists w
    end.
Proof.
  intros I [Ht Hres]%suspended_Some.
  destruct (task_store w t tk I Ht) as (st & h & hp & Hst & Hh & Hhp).
  assert (t_state tk < length (dicts w)) as Bd by eauto using lookup_lt_Some.
  assert (messages st < length (lists w)) as Bl by eauto using lookup_lt_Some.
  assert (t_messages tk < length (lists w)) as Bp by eauto using lookup_lt_Some.
  pose proof (λ w1 Ht1 I1, invariant_terminate t tk
     (terminal_call (t_status_message tk) o) (task_result o) (task_result o) w1
     Ht1 Hres (λ m, is_terminal_terminal_call _ m o) I1) as T.
  unfold finish, process_message_end, process_message_inner.
  destruct o as [[|h']|[|e|e]]; cbn -[handle_message_end];
    rewrite ?Hst; cbn -[handle_message_end]; rewrite ?Hh; cbn -[handle_message_end];
    rewrite ?(pop_spec _ _ _ Hh);
    (rewrite handle_message_end_spec by done); unfold_world;
    eexists _, st, h, hp; (split; [done|]); (split; [done|]); (split; [done|]);
    (split; [done|]); (split; [|repeat split; try done]).
  - apply (T (set_dict (t_state tk) (set_messages (t_messages tk) st) w)); [done|].
    by apply invariant_set_dict.
  - unfold history. cbn. rewrite list_lookup_insert_eq by done. done.
  - apply (T (set_dict (t_state tk) (set_messages (length (lists w)) st)
                (alloc_list h' w))); [done|].
    apply invariant_set_dict; [cbn; rewrite length_app; cbn; lia|].
    by apply invariant_alloc_list.
  - unfold history. cbn. rewrite list_lookup_insert_eq by done. cbn.
    by rewrite lookup_app_r, Nat.sub_diag.
  - apply (T (set_dict (t_state tk)
                (set_messages (length (<[messages st := removelast h]> (lists w))) st)
                (alloc_list [] (set_list (messages st) (removelast h) w)))); [done|].
    apply invariant_set_dict; [cbn; rewrite length_app; cbn; lia|].
    by apply invariant_alloc_list, invariant_set_list.
  - unfold history. cbn. rewrite list_lookup_insert_eq by done. cbn.
    by rewrite lookup_app_r, Nat.sub_diag.
  - by apply (T w).
  - unfold history. cbn. by rewrite Hst.
  - by apply (T w).
  - unfold history. cbn. by rewrite Hst.
Qed.


Lemma invariant_sends calls w :
  Forall reply calls → invariant w →
  invariant (mkWorld (user_states w) (active_tasks w) (dicts w) (lists w)
               (tasks w) (sent w ++ calls)).
Proof.
  intros H. revert w. induction H as [|c calls Hc _ IH]; intros w I.
  - rewrite app_nil_r. by destruct w.
  - specialize (IH (send c w) (invariant_send c w Hc I)). cbn in IH.
    by rewrite <- app_assoc in IH.
Qed.

Lemma output_callback_spec update c w :
  ∃ calls, Forall reply calls ∧ (length calls ≤ 1)%nat ∧
    output_callback update c w =
      mkWorld (user_states w) (active_tasks w) (dicts w) (lists w) (tasks w)
              (sent w ++ calls).
Proof.
  destruct c; cbn; unfold send.
  - eexists [_]. split; [|split; [cbn; lia|reflexivity]]. by repeat constructor.
  - eexists [_]. split; [|split; [cbn; lia|reflexivity]]. by repeat constructor.
  - exists []. rewrite app_nil_r. split; [done|]. split; [cbn; lia|]. by destruct w.
Qed.

(** The tool-output callback: the result is recorded, then the replies
    are sent. *)
Lemma tool_output_callback_spec update state tool_output tool_use_id w st :
  dicts w !! state = Some st →
  ∃ calls res, Forall reply calls ∧
    tool_output_callback b64decode update state tool_output tool_use_id w =
      Some (mkWorld (user_states w) (active_tasks w)
              (<[state := set_tools (<[tool_use_id := tool_output]> (tools st)) st]>
                 (dicts w))
              (lists w) (tasks w) (sent w ++ calls), res).
Proof.
  intros Hst. unfold tool_output_callback. rewrite Hst. cbn.
  destruct (truthy (output tool_output)), (truthy (base64_image tool_output));
    [destruct (b64decode _)| |destruct (b64decode _)|];
    destruct (truthy (error tool_output)); unfold_world;
    rewrite <- ?app_assoc; cbn;
    try (eexists _, _; split; [|reflexivity]; by repeat constructor).
  all: eexists [], _; rewrite app_nil_r; split; [|reflexivity]; by repeat constructor.
Qed.

Lemma api_response_callback_spec state req response err now w st :
  dicts w !! state = Some st →
  api_response_callback state req response err now w =
    Some (set_dict state
            (set_responses (<[isoformat now := (req, response)]> (responses st)) st)
            w).
Proof. intros Hst. unfold api_response_callback. by rewrite Hst. Qed.

Lemma cancel_spec t tk w :
  tasks w !! t = Some tk →
  ∃ tk', cancel t w = Some (set_tasks (<[t := tk']> (tasks w)) w) ∧
    t_update tk' = t_update tk ∧ t_state tk' = t_state tk ∧
    t_status_message tk' = t_status_message tk ∧
    t_messages tk' = t_messages tk ∧ t_result tk' = t_result tk ∧
    (t_result tk = None → tk' = set_cancel_requested tk).
Proof.
  intros Ht. unfold cancel. rewrite Ht. cbn. destruct (t_result tk) eqn:E.
  - exists tk. unfold set_tasks. rewrite list_insert_id by done.
    by destruct w.
  - exists (set_cancel_requested tk). by repeat split.
Qed.

(** Every step of the module keeps the store well formed. *)
Lemma step_invariant w e w' : Step w e = Some w' → invariant w → invariant w'.
Proof.
  intros Hs I. destruct e as [u|u|u|u|t c|t r i|t req resp err now|t msgs|t o];
    cbn in Hs.
  - by eapply handle_message_invariant.
  - injection Hs as <-. unfold start. destruct (unauthorized _ _); [done|].
    by apply invariant_send.
  - injection Hs as <-. unfold reset. destruct (unauthorized _ _); [done|].
    apply invariant_send; [done|].
    destruct (user_states w !! effective_user_id u) eqn:E; [|done].
    apply invariant_set_user_states; [|done].
    intros u' d [_ H]%lookup_delete_Some. destruct I as [I1 _ _ _ _ _ _]. eauto.
  - unfold stop in Hs. destruct (unauthorized _ _); [by simplify_eq|].
    destruct (active_tasks w !! effective_user_id u) as [t|] eqn:E.
    + destruct (inv_active w I _ _ E) as (tk & Ht & _).
      destruct (cancel_spec t tk w Ht) as (tk' & Hc & ? & ? & ? & ? & ? & _).
      rewrite Hc in Hs. cbn in Hs. injection Hs as <-.
      apply invariant_send; [done|]. by eapply invariant_update_task.
    + injection Hs as <-. by apply invariant_send.
  - destruct (suspended w t) as [tk|]; [|done]. cbn in Hs. injection Hs as <-.
    destruct (output_callback_spec (t_update tk) c w) as (calls & Hc & _ & ->).
    by apply invariant_sends.
  - destruct (suspended w t) as [tk|] eqn:E; [|done]. cbn in Hs.
    apply suspended_Some in E as [Ht _].
    destruct (task_store w t tk I Ht) as (st & h & hp & Hst & Hh & Hhp).
    destruct (tool_output_callback_spec (t_update tk) (t_state tk) r i w st Hst)
      as (calls & res & Hc & Heq).
    rewrite Heq in Hs. cbn in Hs. injection Hs as <-.
    apply (invariant_sends calls (set_dict (t_state tk) _ w) Hc).
    apply invariant_set_dict; [|done]. cbn. eauto using lookup_lt_Some.
  - destruct (suspended w t) as [tk|] eqn:E; [|done]. cbn in Hs.
    apply suspended_Some in E as [Ht _].
    destruct (task_store w t tk I Ht) as (st & h & hp & Hst & Hh & Hhp).
    rewrite (api_response_callback_spec _ _ _ _ _ _ st Hst) in Hs.
    injection Hs as <-. apply invariant_set_dict; [|done]. cbn.
    eauto using lookup_lt_Some.
  - destruct (suspended w t) as [tk|]; [|done]. cbn in Hs.
    destruct (lists w !! t_messages tk); [|done]. cbn in Hs. injection Hs as <-.
    by apply invariant_set_list.
  - destruct (suspended w t) as [tk|] eqn:E; [|done]. cbn in Hs.
    destruct (finish_spec t tk o w I E) as (w1 & st & h & hp & _ & _ & _ & Hf & I' & _).
    congruence.
Qed.

Lemma run_invariant es w w' : Run w es = Some w' → invariant w → invariant w'.
Proof.
  revert w. induction es as [|e es IH]; intros w Hr I; cbn in Hr.
  - by simplify_eq.
  - destruct (Step w e) as [w1|] eqn:E; [|done]. cbn in Hr.
    eauto using step_invariant.
Qed.

Lemma reachable_invariant es w : Run initial es = Some w → invariant w.
Proof. eauto using run_invariant, invariant_initial. Qed.


Lemma init_user_state_ext user_id w :
  (∀ d st, dicts w !! d = Some st →
           dicts (init_user_state user_id w) !! d = Some st) ∧
  (∀ l h, lists w !! l = Some h →
          lists (init_user_state user_id w) !! l = Some h) ∧
  (∀ u, u ≠ user_id →
        user_states (init_user_state user_id w) !! u = user_states w !! u).
Proof.
  unfold init_user_state. destruct (user_states w !! user_id); [done|]. cbn.
  split; [|split].
  - intros d st H. by rewrite lookup_app_l by eauto using lookup_lt_Some.
  - intros l h H. by rewrite lookup_app_l by eauto using lookup_lt_Some.
  - intros u Hu. by rewrite lookup_insert_ne.
Qed.

Lemma same_task_refl tk : same_task tk tk.
Proof. by repeat split. Qed.


(** What one step leaves alone. *)
Lemma step_frame w e w' :
  Step w e = Some w' → invariant w →
  (∃ calls, sent w' = sent w ++ calls) ∧
  (∀ t tk, tasks w !! t = Some tk →
     ∃ tk', tasks w' !! t = Some tk' ∧ same_task tk tk' ∧
       (t_result tk' = t_result tk ∨
        ∃ o, e = loop_ends t o ∧ t_result tk = None)) ∧
  (quiet e = true → ∀ d h, history w d = Some h →
     ∃ rest, history w' d = Some (h ++ rest)) ∧
  (is_text_message e = false → ∀ u, user_states w !! u = None →
     user_states w' !! u = None).
Proof.
  intros Hs I.
  assert (∀ t tk, tasks w !! t = Some tk →
     ∃ tk', tasks w !! t = Some tk' ∧ same_task tk tk' ∧
       (t_result tk' = t_result tk ∨
        ∃ o, e = loop_ends t o ∧ t_result tk = None)) as Tid.
  { intros t tk H. exists tk. eauto using same_task_refl. }
  assert (∀ d h, history w d = Some h → ∃ rest, history w d = Some (h ++ rest))
    as Hid.
  { intros d h H. exists []. by rewrite app_nil_r. }
  assert (∃ calls, sent w = sent w ++ calls) as Sid.
  { exists []. by rewrite app_nil_r. }
  destruct e as [u|u|u|u|t c|t r i|t req resp err now|t msgs|t o];
    cbn in Hs.
  - (* text_message *)
    destruct (Unauthorized (effective_user_id u)) eqn:Hauth.
    { unfold handle_message in Hs. rewrite Hauth in Hs. by simplify_eq. }
    destruct (handle_message_authorized u w Hauth I)
      as (d & st & h & Hd & Hst & Hh & E).
    rewrite E in Hs. injection Hs as <-. cbn.
    destruct (init_user_state_ext (effective_user_id u) w) as (Xd & Xl & _).
    split; [eauto|]. split; [|split; [|done]].
    + intros t tk H. exists tk.
      rewrite lookup_app_l by eauto using lookup_lt_Some.
      eauto using same_task_refl.
    + intros _ d0 h0 H0. unfold history in *. cbn.
      destruct (dicts w !! d0) as [st0|] eqn:E0; [|done]. cbn in H0.
      rewrite (Xd _ _ E0). cbn. apply Xl in H0.
      destruct (decide (messages st0 = messages st)) as [Em|Em].
      * rewrite Em in *. rewrite list_lookup_insert_eq by eauto using lookup_lt_Some.
        assert (h0 = h) as -> by congruence. eauto.
      * rewrite list_lookup_insert_ne by done. exists []. by rewrite app_nil_r.
  - (* start *)
    injection Hs as <-. unfold start.
    destruct (unauthorized _ _); [done|]. cbn. split; [eauto|done].
  - (* reset *)
    injection Hs as <-. unfold reset.
    destruct (unauthorized _ _); [done|].
    destruct (user_states w !! effective_user_id u) eqn:E; cbn;
      (split; [eauto|]); (split; [done|]); (split; [done|]); [|done].
    intros _ u' Hu'. destruct (decide (u' = effective_user_id u)) as [->|];
      [apply lookup_delete_eq|by rewrite lookup_delete_ne].
  - (* stop *)
    unfold stop in Hs. destruct (unauthorized _ _); [by simplify_eq|].
    destruct (active_tasks w !! effective_user_id u) as [t|] eqn:E.
    + destruct (inv_active w I _ _ E) as (tk & Ht & _).
      destruct (cancel_spec t tk w Ht) as (tk' & Hc & E1 & E2 & E3 & E4 & E5 & _).
      rewrite Hc in Hs. cbn in Hs. injection Hs as <-. cbn.
      split; [eauto|]. split; [|done].
      intros t0 tk0 H0. destruct (decide (t0 = t)) as [->|Hne].
      * exists tk'. rewrite list_lookup_insert_eq by eauto using lookup_lt_Some.
        simplify_eq. by repeat split; auto.
      * exists tk0. rewrite list_lookup_insert_ne by done.
        eauto using same_task_refl.
    + injection Hs as <-. cbn. split; [eauto|done].
  - (* loop_output *)
    destruct (suspended w t) as [tk|]; [|done]. cbn in Hs. injection Hs as <-.
    destruct (output_callback_spec (t_update tk) c w) as (calls & _ & _ & ->).
    cbn. split; [eauto|done].
  - (* loop_tool_output *)
    destruct (suspended w t) as [tk|] eqn:E; [|done]. cbn in Hs.
    apply suspended_Some in E as [Ht _].
    destruct (task_store w t tk I Ht) as (st & h & hp & Hst & Hh & Hhp).
    destruct (tool_output_callback_spec (t_update tk) (t_state tk) r i w st Hst)
      as (calls & res & _ & Heq).
    rewrite Heq in Hs. cbn in Hs. injection Hs as <-. cbn.
    split; [eauto|]. split; [done|]. split; [|done].
    intros _ d0 h0 H0. exists []. rewrite app_nil_r. unfold history in *. cbn.
    destruct (decide (d0 = t_state tk)) as [->|Hne].
    * rewrite list_lookup_insert_eq by eauto using lookup_lt_Some. cbn.
      by rewrite Hst in H0.
    * by rewrite list_lookup_insert_ne.
  - (* loop_api_response *)
    destruct (suspended w t) as [tk|] eqn:E; [|done]. cbn in Hs.
    apply suspended_Some in E as [Ht _].
    destruct (task_store w t tk I Ht) as (st & h & hp & Hst & Hh & Hhp).
    rewrite (api_response_callback_spec _ _ _ _ _ _ st Hst) in Hs.
    injection Hs as <-. cbn.
    split; [eauto|]. split; [done|]. split; [|done].
    intros _ d0 h0 H0. exists []. rewrite app_nil_r. unfold history in *. cbn.
    destruct (decide (d0 = t_state tk)) as [->|Hne].
    * rewrite list_lookup_insert_eq by eauto using lookup_lt_Some. cbn.
      by rewrite Hst in H0.
    * by rewrite list_lookup_insert_ne.
  - (* loop_mutates *)
    destruct (suspended w t) as [tk|]; [|done]. cbn in Hs.
    destruct (lists w !! t_messages tk); [|done]. cbn in Hs. injection Hs as <-.
    cbn. split; [eauto|]. split; [done|]. split; [done|done].
  - (* loop_ends *)
    destruct (suspended w t) as [tk|] eqn:E; [|done]. cbn in Hs.
    destruct (finish_spec t tk o w I E)
      as (w1 & st & h & hp & _ & _ & _ & Hf & _ & Hu & _ & Ht & Hsent & _).
    rewrite Hf in Hs. injection Hs as <-.
    apply suspended_Some in E as [Htk Hres].
    split; [eauto|]. split; [|split; [done|]].
    + intros t0 tk0 H0. rewrite Ht. destruct (decide (t0 = t)) as [->|Hne].
      * eexists. rewrite list_lookup_insert_eq by eauto using lookup_lt_Some.
        simplify_eq. split; [done|]. split; [by repeat split|]. right. eauto.
      * exists tk0. rewrite list_lookup_insert_ne by done.
        eauto using same_task_refl.
    + intros _ u' Hu'. by rewrite Hu.
Qed.


Lemma run_app es1 es2 w :
  Run w (es1 ++ es2) = (w1 ← Run w es1; Run w1 es2).
Proof.
  revert w. induction es1 as [|e es1 IH]; intros w; cbn; [done|].
  destruct (Step w e); cbn; [apply IH|done].
Qed.



(** Only a text message gives a user a state. *)
Lemma run_user_states es w w' u :
  Run w es = Some w' → invariant w →
  Forall (λ e, is_text_message e = false) es →
  user_states w !! u = None → user_states w' !! u = None.
Proof.
  revert w. induction es as [|e es IH]; intros w Hr I Hq Hu; cbn in Hr.
  - by simplify_eq.
  - destruct (Step w e) as [w1|] eqn:E; [|done]. cbn in Hr.
    apply Forall_cons in Hq as [Hq1 Hq].
    destruct (step_frame w e w1 E I) as (_ & _ & _ & U1).
    eauto using step_invariant.
Qed.

Lemma unauthorized_true user_id :
  TELEGRAM_USER_ID ≠ Some (pretty user_id) → Unauthorized user_id = true.
Proof.
  intros H. unfold unauthorized.
  rewrite (bool_decide_eq_false_2 (Some (pretty user_id) = TELEGRAM_USER_ID))
    by congruence.
  apply orb_true_r.
Qed.

(** ** The authorization gate *)

(** C5: a text message or a start, reset or stop command whose sender is not
    the configured identity, which includes every sender when no identity is
    configured, is answered by no call to the client and leaves the
    conversation store, the task registry and everything else as they
    were. *)
Theorem unauthorized_sender_is_ignored (w : world) (update : Update) :
  TELEGRAM_USER_ID ≠ Some (pretty (effective_user_id update)) →
  Step w (text_message update) = Some w ∧
  Step w (start_command update) = Some w ∧
  Step w (reset_command update) = Some w ∧
  Step w (stop_command update) = Some w.
Proof.
  intros H%unauthorized_true. cbn.
  unfold handle_message, start, reset, stop. by rewrite H.
Qed.


(** ** The end of a turn *)



Lemma step_loop_ends w t tk o :
  suspended w t = Some tk → Step w (loop_ends t o) = finish t tk o w.
Proof. intros H. cbn -[finish]. by rewrite H. Qed.









(** ** The conversation store *)

(** The state a text message of the allow-listed sender is processed in. *)
Lemma text_message_state w update :
  invariant w → Unauthorized (effective_user_id update) = false →
  let user_id := effective_user_id update in
  ∃ w' d st,
    Step w (text_message update) = Some w' ∧
    user_states w' !! user_id = Some d ∧ dicts w' !! d = Some st ∧
    history w' d = Some (default [] (user_history w user_id)
                         ++ [user_entry (message_text update)]) ∧
    match user_states w !! user_id with
    | None =>
        d = length (dicts w) ∧ st = mkState (length (lists w)) ∅ ∅ 10 "" ∧
        history (init_user_state user_id w) d = Some []
    | Some d0 =>
        d = d0 ∧ user_states w' = user_states w ∧ dicts w' = dicts w ∧
        ∃ h, lists w !! messages st = Some h ∧
          lists w' = <[messages st := h ++ [user_entry (message_text update)]]>
                       (lists w)
    end.
Proof.
  intros I Hauth user_id.
  destruct (handle_message_authorized update w Hauth I)
    as (d & st & h & Hd & Hst & Hh & E).
  destruct (init_user_state_lookup user_id w I)
    as (d' & st' & h' & Hd' & Hst' & Hh' & Hdef & Hcase).
  fold user_id in Hd, Hst, Hh.
  assert (d' = d) as -> by congruence. assert (st' = st) as -> by congruence.
  assert (h' = h) as -> by congruence. clear Hd' Hst' Hh'.
  eexists _, d, st. split; [exact E|]. cbn. fold user_id.
  split; [done|]. split; [done|]. split.
  { unfold history. cbn. fold user_id. rewrite Hst. cbn.
    rewrite list_lookup_insert_eq by eauto using lookup_lt_Some. by rewrite Hdef. }
  destruct (user_states w !! user_id) as [d0|] eqn:Eu.
  - destruct Hcase as [-> Hw]. rewrite Hw in *. eauto 10.
  - destruct Hcase as [-> ->]. split; [done|]. split; [done|].
    unfold history. rewrite Hst. cbn. cbn in Hh. rewrite Hh, Hdef.
    unfold user_history. by rewrite Eu.
Qed.

(** C10: an authorized message of a user without a conversation state
    creates one with an empty history, no tool results, no logged
    responses, an image limit of 10 and an empty prompt suffix, and the
    turn starts from it; for a user with a state, the message leaves the
    registration of the state and every state dict as they are, and only
    appends the user entry to the list the state already holds. *)
Theorem message_creates_or_keeps_state (es : list event) (w : world)
    (update : Update) :
  Run initial es = Some w →
  Unauthorized (effective_user_id update) = false →
  let user_id := effective_user_id update in
  ∃ w' d st,
    Step w (text_message update) = Some w' ∧
    user_states w' !! user_id = Some d ∧ dicts w' !! d = Some st ∧
    history w' d = Some (default [] (user_history w user_id)
                         ++ [user_entry (message_text update)]) ∧
    match user_states w !! user_id with
    | None =>
        d = length (dicts w) ∧ st = mkState (length (lists w)) ∅ ∅ 10 "" ∧
        history (init_user_state user_id w) d = Some []
    | Some d0 =>
        d = d0 ∧ user_states w' = user_states w ∧ dicts w' = dicts w ∧
        ∃ h, lists w !! messages st = Some h ∧
          lists w' = <[messages st := h ++ [user_entry (message_text update)]]>
                       (lists w)
    end.
Proof. intros I%reachable_invariant Hauth. by apply text_message_state. Qed.

(** C9: a reset of the allow-listed sender removes the user's state, and
    with it history, tool results and configuration, and is confirmed by
    one reply.  Whatever happens then, short of a further text message, the
    next message of that user is processed in a state created for it: a
    dict and a list that did not exist before, with only the new user entry
    in the history, no tool results, no logged responses and the default
    configuration. *)
Theorem reset_then_message_starts_fresh (es : list event) (w : world)
    (update : Update) :
  Run initial es = Some w →
  Unauthorized (effective_user_id update) = false →
  let user_id := effective_user_id update in
  ∃ w1,
    Step w (reset_command update) = Some w1 ∧
    user_states w1 !! user_id = None ∧
    user_history w1 user_id = None ∧
    sent w1 = sent w ++ [ReplyText update reset_text None] ∧
    ∀ es' w2 update',
      Run w1 es' = Some w2 →
      Forall (λ e, is_text_message e = false) es' →
      effective_user_id update' = user_id →
      ∃ w3 d,
        Step w2 (text_message update') = Some w3 ∧
        user_states w3 !! user_id = Some d ∧ d = length (dicts w2) ∧
        dicts w3 !! d = Some (mkState (length (lists w2)) ∅ ∅ 10 "") ∧
        history w3 d = Some [user_entry (message_text update')].
Proof.
  intros I%reachable_invariant Hauth user_id. subst user_id.
  assert (Step w (reset_command update) = Some (reset TELEGRAM_USER_ID update w))
    as E by done.
  pose proof (step_invariant _ _ _ E I) as I1.
  assert (user_states (reset TELEGRAM_USER_ID update w) !! effective_user_id update = None) as Hu.
  { unfold reset. rewrite Hauth.
    destruct (user_states w !! effective_user_id update) eqn:Eu; cbn; [apply lookup_delete_eq|done]. }
  eexists. split; [exact E|]. split; [done|]. split; [|split].
  - unfold user_history. by rewrite Hu.
  - unfold reset. rewrite Hauth.
    by destruct (user_states w !! effective_user_id update).
  - intros es' w2 update' Hr Hq Hid.
    pose proof (run_user_states _ _ _ _ Hr I1 Hq Hu) as Hu2.
    destruct (text_message_state w2 update' (run_invariant _ _ _ Hr I1))
      as (w3 & d & st & E3 & Hd & Hst & Hh & Hcase).
    { by rewrite Hid. }
    rewrite Hid in *. unfold user_history in Hh. rewrite Hu2 in Hh, Hcase.
    destruct Hcase as (-> & -> & _). eauto 10.
Qed.

(** ** The stop command *)



(** ** The callbacks *)



(** ** The events, case by case *)

Lemma set_messages_id st : set_messages (messages st) st = st.
Proof. by destruct st. Qed.

(** The store after the loop of a task has ended: the dict of the task gets
    a list reference, and no list but the one it referenced changes. *)
Lemma finish_store t tk o w w' st h :
  suspended w t = Some tk →
  dicts w !! t_state tk = Some st → lists w !! messages st = Some h →
  finish t tk o w = Some w' →
  ∃ l', dicts w' = <[t_state tk := set_messages l' st]> (dicts w) ∧
    (l' = t_messages tk ∨ l' = messages st ∨ l' = length (lists w)) ∧
    (length (lists w) ≤ length (lists w'))%nat ∧
    (∀ l, l ≠ messages st → l < length (lists w) →
          lists w' !! l = lists w !! l).
Proof.
  intros Hs Hst Hh. unfold finish, process_message_end, process_message_inner.
  destruct o as [[|h']|[|e|e]]; cbn -[handle_message_end];
    rewrite ?Hst; cbn -[handle_message_end]; rewrite ?Hh;
    cbn -[handle_message_end]; rewrite ?(pop_spec _ _ _ Hh);
    (rewrite handle_message_end_spec by done); unfold_world; intros [= <-]; cbn.
  - exists (t_messages tk). split; [done|]. split; [auto|]. split; [lia|done].
  - exists (length (lists w)). rewrite length_app. split; [done|].
    split; [auto|]. split; [lia|]. intros l _ Hl. by rewrite lookup_app_l.
  - exists (length (lists w)). rewrite length_app, !length_insert.
    split; [done|]. split; [auto|]. split; [lia|]. intros l Hne Hl.
    rewrite lookup_app_l by (by rewrite length_insert).
    by rewrite list_lookup_insert_ne.
  - exists (messages st). rewrite set_messages_id, list_insert_id by done.
    split; [done|]. split; [auto|]. split; [lia|done].
  - exists (messages st). rewrite set_messages_id, list_insert_id by done.
    split; [done|]. split; [auto|]. split; [lia|done].
Qed.

(** What each event amounts to. *)
Lemma step_cases w e w' :
  Step w e = Some w' → invariant w →
  match e with
  | text_message update =>
      (Unauthorized (effective_user_id update) = true ∧ w' = w) ∨
      (Unauthorized (effective_user_id update) = false ∧
       let w0 := init_user_state (effective_user_id update) w in
       ∃ d st h,
         user_states w0 !! effective_user_id update = Some d ∧
         dicts w0 !! d = Some st ∧ lists w0 !! messages st = Some h ∧
         w' = mkWorld (user_states w0)
                (<[effective_user_id update := length (tasks w)]> (active_tasks w))
                (dicts w0)
                (<[messages st := h ++ [user_entry (message_text update)]]>
                   (lists w0))
                (tasks w ++ [mkTask update d (length (sent w)) (messages st)
                                    false None None])
                (sent w ++ [ReplyText update processing_text None]))
  | start_command update =>
      (Unauthorized (effective_user_id update) = true ∧ w' = w) ∨
      (Unauthorized (effective_user_id update) = false ∧
       w' = send (ReplyText update start_text None) w)
  | reset_command update =>
      (Unauthorized (effective_user_id update) = true ∧ w' = w) ∨
      (Unauthorized (effective_user_id update) = false ∧
       w' = send (ReplyText update reset_text None)
              (set_user_states
                 (delete (effective_user_id update) (user_states w)) w))
  | stop_command update =>
      (Unauthorized (effective_user_id update) = true ∧ w' = w) ∨
      (Unauthorized (effective_user_id update) = false ∧
       active_tasks w !! effective_user_id update = None ∧
       w' = send (ReplyText update nothing_to_stop_text None) w) ∨
      (Unauthorized (effective_user_id update) = false ∧
       ∃ t tk, active_tasks w !! effective_user_id update = Some t ∧
         suspended w t = Some tk ∧
         w' = send (ReplyText update stopped_text None)
                (set_tasks (<[t := set_cancel_requested tk]> (tasks w)) w))
  | loop_output t c =>
      ∃ tk, suspended w t = Some tk ∧ w' = output_callback (t_update tk) c w
  | loop_tool_output t tool_output tool_use_id =>
      ∃ tk st res, suspended w t = Some tk ∧
        dicts w !! t_state tk = Some st ∧
        tool_output_callback b64decode (t_update tk) (t_state tk) tool_output
          tool_use_id w = Some (w', res)
  | loop_api_response t req response err now =>
      ∃ tk st, suspended w t = Some tk ∧ dicts w !! t_state tk = Some st ∧
        w' = set_dict (t_state tk)
               (set_responses
                  (<[isoformat now := (req, response)]> (responses st)) st) w
  | loop_mutates t msgs =>
      ∃ tk h, suspended w t = Some tk ∧ lists w !! t_messages tk = Some h ∧
        w' = set_list (t_messages tk) msgs w
  | loop_ends t o =>
      ∃ tk st h, suspended w t = Some tk ∧
        dicts w !! t_state tk = Some st ∧ lists w !! messages st = Some h ∧
        finish t tk o w = Some w'
  end.
Proof.
  intros Hs I. destruct e as [u|u|u|u|t c|t r i|t req resp err now|t msgs|t o];
    cbn -[finish] in Hs.
  - destruct (Unauthorized (effective_user_id u)) eqn:Hauth.
    { unfold handle_message in Hs. rewrite Hauth in Hs. left. by simplify_eq. }
    destruct (handle_message_authorized u w Hauth I)
      as (d & st & h & Hd & Hst & Hh & E).
    right. split; [done|]. exists d, st, h. rewrite E in Hs. by simplify_eq.
  - injection Hs as <-. unfold start.
    destruct (unauthorized _ _); [by left|by right].
  - injection Hs as <-. unfold reset.
    destruct (unauthorized _ _); [by left|right]. split; [done|].
    destruct (user_states w !! effective_user_id u) eqn:E; [done|].
    rewrite delete_id by done. by destruct w.
  - unfold stop in Hs. destruct (unauthorized _ _); [left; by simplify_eq|right].
    destruct (active_tasks w !! effective_user_id u) as [t|] eqn:E.
    + right. split; [done|]. destruct (inv_active w I _ _ E) as (tk & Ht & Hres & _).
      destruct (cancel_spec t tk w Ht) as (tk' & Hc & _ & _ & _ & _ & _ & Hset).
      rewrite Hc, (Hset Hres) in Hs. cbn in Hs. injection Hs as <-.
      exists t, tk. split; [done|]. split; [by apply suspended_Some|done].
    + left. by simplify_eq.
  - destruct (suspended w t) as [tk|]; [|done]. cbn in Hs. injection Hs as <-.
    eauto.
  - destruct (suspended w t) as [tk|] eqn:E; [|done]. cbn in Hs.
    pose proof E as [Ht _]%suspended_Some.
    destruct (task_store w t tk I Ht) as (st & h & hp & Hst & _).
    destruct (tool_output_callback b64decode _ _ _ _ w) as [[w1 res]|] eqn:Ec;
      [|done].
    cbn in Hs. injection Hs as <-. eauto 10.
  - destruct (suspended w t) as [tk|] eqn:E; [|done]. cbn in Hs.
    pose proof E as [Ht _]%suspended_Some.
    destruct (task_store w t tk I Ht) as (st & h & hp & Hst & _).
    rewrite (api_response_callback_spec _ _ _ _ _ _ st Hst) in Hs.
    injection Hs as <-. eauto.
  - destruct (suspended w t) as [tk|]; [|done]. cbn in Hs.
    destruct (lists w !! t_messages tk) eqn:E; [|done]. cbn in Hs.
    injection Hs as <-. eauto.
  - destruct (suspended w t) as [tk|] eqn:E; [|done]. cbn -[finish] in Hs.
    pose proof E as [Ht _]%suspended_Some.
    destruct (task_store w t tk I Ht) as (st & h & hp & Hst & Hh & _).
    eauto 10.
Qed.

(** ** More on the authorization gate *)

Lemma pretty_N_go_nonempty x s : s ≠ "" → pretty_N_go x s ≠ "".
Proof.
  revert s. induction (N.lt_wf_0 x) as [x _ IH]; intros s Hs.
  destruct (decide (x = 0%N)) as [->|Hx]; [by rewrite pretty_N_go_0|].
  rewrite pretty_N_go_step by lia. apply IH; [apply N.div_lt; lia|done].
Qed.

(** [str(user_id)] is never empty. *)
Lemma pretty_Z_nonempty (x : Z) : pretty x ≠ "".
Proof.
  destruct x as [|p|p]; [done| |done].
  unfold pretty, pretty_Z, pretty, pretty_positive, pretty, pretty_N.
  destruct (decide (N.pos p = 0%N)) as [|_]; [done|].
  rewrite pretty_N_go_step by lia. by apply pretty_N_go_nonempty.
Qed.

Lemma authorized_iff user_id :
  Unauthorized user_id = false ↔ TELEGRAM_USER_ID = Some (pretty user_id).
Proof.
  unfold unauthorized. split.
  - intros [_ H]%orb_false_elim. apply negb_false_iff, bool_decide_eq_true in H.
    done.
  - intros ->. cbn. rewrite (bool_decide_eq_false_2 (pretty user_id = ""))
      by apply pretty_Z_nonempty.
    by rewrite bool_decide_eq_true_2.
Qed.

(** X1: the guard of the handlers admits at most one Telegram user id: a
    sender passes only if the configured text is exactly the decimal text
    of the id, and any other id that passes is that same id. *)
Theorem gate_admits_one_user (user_id : Z) :
  unauthorized TELEGRAM_USER_ID user_id = false →
  TELEGRAM_USER_ID = Some (pretty user_id) ∧
  ∀ user_id', unauthorized TELEGRAM_USER_ID user_id' = false →
              user_id' = user_id.
Proof.
  intros H%authorized_iff. split; [done|].
  intros u' H'%authorized_iff. rewrite H in H'. injection H' as H'.
  by apply (inj pretty) in H'.
Qed.

Lemma run_cons w e es :
  Run w (e :: es) = (w1 ← Step w e; Run w1 es).
Proof. done. Qed.

(** X2: with no allow-listed identity (unset, or empty after line 45) the
    bot does nothing at all: whatever updates arrive, no call is made to the
    client, no state is created and no task is started. *)
Theorem deny_all_without_identity (es : list event) (w : world) :
  truthy TELEGRAM_USER_ID = false →
  Run initial es = Some w → w = initial.
Proof.
  intros Hcfg.
  assert (∀ u, Unauthorized u = true) as Hdeny.
  { intros u. unfold unauthorized. by rewrite Hcfg. }
  induction es as [|e es IH]; [by intros [= <-]|].
  rewrite run_cons. destruct (Step initial e) as [w1|] eqn:E; [|done]. cbn.
  assert (w1 = initial) as ->; [|done].
  destruct e; cbn in E; unfold handle_message, start, reset, stop in E;
    rewrite ?Hdeny in E; by simplify_eq.
Qed.


(** ** Where calls, tasks and states come from *)

Lemma tool_output_callback_calls update state tool_output tool_use_id w st :
  dicts w !! state = Some st →
  ∃ calls res,
    Forall (λ c, reply c ∧ recipient c = Some update) calls ∧
    tool_output_callback b64decode update state tool_output tool_use_id w =
      Some (mkWorld (user_states w) (active_tasks w)
              (<[state := set_tools (<[tool_use_id := tool_output]> (tools st)) st]>
                 (dicts w))
              (lists w) (tasks w) (sent w ++ calls), res).
Proof.
  intros Hst. unfold tool_output_callback. rewrite Hst. cbn.
  destruct (truthy (output tool_output)), (truthy (base64_image tool_output));
    [destruct (b64decode _)| |destruct (b64decode _)|];
    destruct (truthy (error tool_output)); unfold_world;
    rewrite <- ?app_assoc; cbn;
    try (eexists _, _; split; [|reflexivity]; by repeat constructor).
  all: eexists [], _; rewrite app_nil_r; split; [|reflexivity]; by repeat constructor.
Qed.

Lemma init_user_state_back user_id w u d :
  user_states (init_user_state user_id w) !! u = Some d →
  u = user_id ∨ user_states w !! u = Some d.
Proof.
  unfold init_user_state. destruct (user_states w !! user_id) eqn:E; [by right|].
  cbn. intros [[-> _]|[_ H]]%lookup_insert_Some; auto.
Qed.

(** The calls a step adds answer an authorized update or the update of a
    running task, and settle a status message only when a loop ends; a task
    of the new world is a task of the old one or was just started by an
    authorized message; so is a registered state. *)
Lemma step_back w e w' :
  Step w e = Some w' → invariant w →
  (∃ calls, sent w' = sent w ++ calls ∧
     Forall (λ c, ∀ update, recipient c = Some update →
               Unauthorized (effective_user_id update) = false ∨
               ∃ t tk, tasks w !! t = Some tk ∧ t_update tk = update) calls ∧
     (loop_task e = None ∨ (∀ t o, e ≠ loop_ends t o) → Forall reply calls)) ∧
  (∀ t tk', tasks w' !! t = Some tk' →
     (∃ tk, tasks w !! t = Some tk ∧ same_task tk tk') ∨
     (t = length (tasks w) ∧
      Unauthorized (effective_user_id (t_update tk')) = false ∧
      t_status_message tk' = length (sent w) ∧
      sent w' = sent w ++ [ReplyText (t_update tk') processing_text None])) ∧
  (∀ u d, user_states w' !! u = Some d →
     user_states w !! u = Some d ∨ Unauthorized u = false).
Proof.
  intros Hs I. pose proof (step_cases w e w' Hs I) as C.
  assert (∀ t tk', tasks w !! t = Some tk' →
            (∃ tk, tasks w !! t = Some tk ∧ same_task tk tk') ∨
            (t = length (tasks w) ∧
             Unauthorized (effective_user_id (t_update tk')) = false ∧
             t_status_message tk' = length (sent w) ∧
             sent w = sent w ++ [ReplyText (t_update tk') processing_text None]))
    as Tid.
  { intros t tk' H. left. eauto using same_task_refl. }
  assert (∃ calls, sent w = sent w ++ calls ∧
     Forall (λ c, ∀ update, recipient c = Some update →
               Unauthorized (effective_user_id update) = false ∨
               ∃ t tk, tasks w !! t = Some tk ∧ t_update tk = update) calls ∧
     (loop_task e = None ∨ (∀ t o, e ≠ loop_ends t o) → Forall reply calls))
    as Sid.
  { exists []. by rewrite app_nil_r. }
  assert (∀ c, reply c → (∀ update, recipient c = Some update →
               Unauthorized (effective_user_id update) = false) →
     ∃ calls, sent w ++ [c] = sent w ++ calls ∧
     Forall (λ c, ∀ update, recipient c = Some update →
               Unauthorized (effective_user_id update) = false ∨
               ∃ t tk, tasks w !! t = Some tk ∧ t_update tk = update) calls ∧
     (loop_task e = None ∨ (∀ t o, e ≠ loop_ends t o) → Forall reply calls))
    as Sone.
  { intros c Hc Hr. exists [c]. split; [done|].
    split; [|by repeat constructor]. constructor; [|constructor]. auto. }
  destruct e as [u|u|u|u|t c|t r i|t req resp err now|t msgs|t o].
  - destruct C as [[_ ->]|[Hauth (d & st & h & Hd & Hst & Hh & ->)]]; [by auto|].
    destruct (init_user_state_frame (effective_user_id u) w) as (_ & _ & _).
    cbn. split; [|split].
    + apply Sone; [done|]. by intros ? [= <-].
    + intros t tk' [H|[Hge H]]%lookup_app_Some.
      * left. eauto using same_task_refl.
      * right. destruct (t - length (tasks w)) as [|n] eqn:E; cbn in H; [|done].
        injection H as <-. cbn. split; [lia|done].
    + intros u' d' [->|H]%init_user_state_back; auto.
  - destruct C as [[_ ->]|[Hauth ->]]; [by auto|]. cbn.
    split; [|split; [by (left; eauto using same_task_refl)|by left]].
    apply Sone; [done|]. by intros ? [= <-].
  - destruct C as [[_ ->]|[Hauth ->]]; [by auto|]. cbn.
    split; [|split; [by (left; eauto using same_task_refl)|]].
    + apply Sone; [done|]. by intros ? [= <-].
    + intros u' d' [_ H]%lookup_delete_Some. auto.
  - destruct C as [[_ ->]|[(Hauth & _ & ->)|(Hauth & t & tk & Ha & Hsusp & ->)]];
      [by auto| |]; cbn.
    + split; [|split; [by (left; eauto using same_task_refl)|by left]].
      apply Sone; [done|]. by intros ? [= <-].
    + split; [|split; [|by left]].
      * apply Sone; [done|]. by intros ? [= <-].
      * apply suspended_Some in Hsusp as [Ht _].
        intros t0 tk' [[-> [<- _]]|[_ H]]%list_lookup_insert_Some; left.
        -- exists tk. split; [done|]. by repeat split.
        -- eauto using same_task_refl.
  - destruct C as (tk & Hsusp & ->). apply suspended_Some in Hsusp as [Ht _].
    destruct c; cbn;
      (split; [|split; [by (left; eauto using same_task_refl)|by left]]);
      [| |done].
    + exists [ReplyText (t_update tk) (assistant_text text) Markdown].
      split; [done|]. split; [|by repeat constructor].
      constructor; [|constructor]. intros ? [= <-]. eauto.
    + exists [ReplyText (t_update tk) (tool_use_text name input) Markdown].
      split; [done|]. split; [|by repeat constructor].
      constructor; [|constructor]. intros ? [= <-]. eauto.
  - destruct C as (tk & st & res & Hsusp & Hst & Hc).
    apply suspended_Some in Hsusp as [Ht _].
    destruct (tool_output_callback_calls (t_update tk) (t_state tk) r i w st Hst)
      as (calls & res' & Hcalls & E).
    rewrite E in Hc. injection Hc as <- <-. cbn.
    split; [|split; [by (left; eauto using same_task_refl)|by left]].
    exists calls. split; [done|]. split.
    + eapply Forall_impl; [exact Hcalls|]. cbn. intros c [_ Hr] ? Hr'.
      rewrite Hr in Hr'. injection Hr' as <-. eauto.
    + intros _. eapply Forall_impl; [exact Hcalls|]. by intros c [? _].
  - destruct C as (tk & st & _ & _ & ->). cbn.
    split; [done|split; [by (left; eauto using same_task_refl)|by left]].
  - destruct C as (tk & h & _ & _ & ->). cbn.
    split; [done|split; [by (left; eauto using same_task_refl)|by left]].
  - destruct C as (tk & st & h & Hsusp & _ & _ & Hf).
    destruct (finish_spec t tk o w I Hsusp)
      as (w1 & _ & _ & _ & _ & _ & _ & Hf' & _ & Hu & _ & Ht' & Hsent & _).
    rewrite Hf in Hf'. injection Hf' as <-.
    apply suspended_Some in Hsusp as [Ht _].
    split; [|split].
    + exists [terminal_call (t_status_message tk) o]. split; [done|].
      split; [constructor; [|constructor]; by destruct o as [?|[| |]]|].
      intros [?|H]; [done|]. by destruct (H t o).
    + rewrite Ht'. intros t0 tk' [[-> [<- _]]|[_ H]]%list_lookup_insert_Some; left.
      * exists tk. split; [done|]. by repeat split.
      * eauto using same_task_refl.
    + rewrite Hu. auto.
Qed.

Lemma step_authorized_only w e w' :
  Step w e = Some w' → invariant w →
  authorized_only TELEGRAM_USER_ID w → authorized_only TELEGRAM_USER_ID w'.
Proof.
  intros Hs I [A1 A2 A3 A4].
  destruct (step_back w e w' Hs I) as ((calls & Hsent & Hcalls & _) & Tb & Ub).
  assert (∀ t tk, tasks w' !! t = Some tk →
            Unauthorized (effective_user_id (t_update tk)) = false) as A2'.
  { intros t tk' [(tk & Ht & (Eu & _))|(_ & Hauth & _)]%Tb; [|done].
    rewrite Eu. eauto. }
  split.
  - intros c update Hc Hr. rewrite Hsent in Hc.
    apply elem_of_app in Hc as [Hc|Hc]; [eauto|].
    rewrite Forall_forall in Hcalls.
    destruct (Hcalls c Hc update Hr) as [?|(t & tk & Ht & <-)]; eauto.
  - done.
  - intros u d [H|H]%Ub; eauto.
  - intros u t Ha.
    destruct (inv_active w' (step_invariant _ _ _ Hs I) _ _ Ha)
      as (tk & Ht & _ & <-). eauto.
Qed.

(** X4: in every reachable world, every reply and every photo answers an
    update whose sender passes the guard, every task was started by such an
    update, and only such a sender has a conversation state or a registry
    entry: the bot never answers and never keeps anything for anyone
    else. *)
Theorem only_the_authorized_are_served (es : list event) (w : world) :
  Run initial es = Some w → authorized_only TELEGRAM_USER_ID w.
Proof.
  assert (∀ es w0 w', Run w0 es = Some w' → invariant w0 →
            authorized_only TELEGRAM_USER_ID w0 →
            authorized_only TELEGRAM_USER_ID w') as H.
  { clear es w. intros es. induction es as [|e es IH]; intros w0 w' Hr I A.
    - by injection Hr as <-.
    - rewrite run_cons in Hr. destruct (Step w0 e) as [w1|] eqn:E; [|done].
      eauto using step_invariant, step_authorized_only. }
  intros Hr. apply (H es initial w Hr invariant_initial).
  split; cbn; intros; try done. by apply elem_of_nil in H0.
Qed.

(** X5: in every reachable world the status handle of a task is the
    position of the processing reply sent for the task's own update, and no
    two tasks have the same status message. *)
Theorem status_message_is_own_processing_reply (es : list event) (w : world)
    (t : nat) (tk : task) :
  Run initial es = Some w → tasks w !! t = Some tk →
  sent w !! t_status_message tk
  = Some (ReplyText (t_update tk) processing_text None) ∧
  ∀ t' tk', tasks w !! t' = Some tk' →
            t_status_message tk' = t_status_message tk → t' = t.
Proof.
  intros Hr Ht. split; [|intros t' tk' Ht' E;
    exact (inv_status w (reachable_invariant _ _ Hr) t' t tk' tk Ht' Ht E)].
  assert (∀ es w0 w', Run w0 es = Some w' → invariant w0 →
            (∀ t tk, tasks w0 !! t = Some tk →
               sent w0 !! t_status_message tk
               = Some (ReplyText (t_update tk) processing_text None)) →
            (∀ t tk, tasks w' !! t = Some tk →
               sent w' !! t_status_message tk
               = Some (ReplyText (t_update tk) processing_text None))) as H.
  { clear. intros es. induction es as [|e es IH]; intros w0 w' Hr I P.
    - by injection Hr as <-.
    - rewrite run_cons in Hr. destruct (Step w0 e) as [w1|] eqn:E; [|done].
      apply (IH w1 w' Hr (step_invariant _ _ _ E I)).
      destruct (step_back w0 e w1 E I) as ((calls & Hsent & _) & Tb & _).
      intros t tk' [(tk & Ht & (Eu & _ & Es & _))|(_ & _ & Es & Hnew)]%Tb.
      + rewrite Es, Eu, Hsent, lookup_app_l; [eauto|].
        by destruct (inv_tasks w0 I _ _ Ht) as (_ & _ & ?).
      + rewrite Es, Hnew, lookup_app_r, Nat.sub_diag; done. }
  eapply (H es initial w Hr invariant_initial); [|exact Ht].
  by intros t0 tk0 ?.
Qed.

(** X6: a status message is settled only when a loop ends.  No callback
    and no command, not even the stop command that requests the
    cancellation, edits or deletes any status message. *)
Theorem status_untouched_until_loop_ends (es : list event) (w : world)
    (e : event) (w' : world) (m : nat) :
  Run initial es = Some w → Step w e = Some w' →
  (∀ t o, e ≠ loop_ends t o) →
  terminal_calls m (sent w') = terminal_calls m (sent w).
Proof.
  intros I%reachable_invariant Hs Hne.
  destruct (step_back w e w' Hs I) as ((calls & -> & _ & Hreply) & _).
  rewrite terminal_calls_app.
  assert (terminal_calls m calls = []) as ->; [|by rewrite app_nil_r].
  specialize (Hreply (or_intror Hne)). unfold terminal_calls.
  induction Hreply as [|c calls Hc _ IH]; [done|]. cbn. by rewrite Hc.
Qed.

(** ** What a state dict keeps *)

Lemma keeps_refl st : keeps st st.
Proof. by repeat split. Qed.

Lemma keeps_trans st1 st2 st3 : keeps st1 st2 → keeps st2 st3 → keeps st1 st3.
Proof.
  intros (T1 & R1 & N1 & C1) (T2 & R2 & N2 & C2).
  repeat split; [auto|auto|congruence|congruence].
Qed.

Lemma init_user_state_dicts_back user_id w d st' :
  dicts (init_user_state user_id w) !! d = Some st' →
  dicts w !! d = Some st' ∨ st' = mkState (length (lists w)) ∅ ∅ 10 "".
Proof.
  unfold init_user_state. destruct (user_states w !! user_id); [by left|].
  cbn. intros [H|[_ H]]%lookup_app_Some; [by left|right].
  destruct (d - length (dicts w)); cbn in H; [|done]. by injection H as <-.
Qed.

Lemma init_user_state_keeps_user user_id w u d :
  user_states w !! u = Some d →
  user_states (init_user_state user_id w) !! u = Some d.
Proof.
  intros H. unfold init_user_state.
  destruct (user_states w !! user_id) eqn:E; [done|]. cbn.
  rewrite lookup_insert_ne; [done|]. intros <-. congruence.
Qed.

Lemma insert_dict_keeps (ds : list user_state) d0 st0 st1 :
  ds !! d0 = Some st0 → keeps st0 st1 →
  (∀ d st, ds !! d = Some st →
     ∃ st', <[d0 := st1]> ds !! d = Some st' ∧ keeps st st') ∧
  (∀ d st', <[d0 := st1]> ds !! d = Some st' →
     ∃ st, ds !! d = Some st ∧ keeps st st').
Proof.
  intros H0 K. split.
  - intros d st H. destruct (decide (d = d0)) as [->|Hne].
    + exists st1. rewrite list_lookup_insert_eq by eauto using lookup_lt_Some.
      by simplify_eq.
    + exists st. rewrite list_lookup_insert_ne by done. eauto using keeps_refl.
  - intros d st' [[-> [<- _]]|[_ H]]%list_lookup_insert_Some;
      eauto using keeps_refl.
Qed.

(** A step keeps every state dict, with its tool results, its logged
    responses and its tunables; a dict that appears is the one of lines
    73-79. *)
Lemma step_dicts w e w' :
  Step w e = Some w' → invariant w →
  (∀ d st, dicts w !! d = Some st →
     ∃ st', dicts w' !! d = Some st' ∧ keeps st st') ∧
  (∀ d st', dicts w' !! d = Some st' →
     (∃ st, dicts w !! d = Some st ∧ keeps st st') ∨
     (only_n_most_recent_images st' = 10%Z ∧ custom_system_prompt st' = "")) ∧
  (is_reset e = false → ∀ u d, user_states w !! u = Some d →
     user_states w' !! u = Some d).
Proof.
  intros Hs I. pose proof (step_cases w e w' Hs I) as C.
  assert ((∀ d st, dicts w !! d = Some st →
             ∃ st', dicts w !! d = Some st' ∧ keeps st st') ∧
          (∀ d st', dicts w !! d = Some st' →
             (∃ st, dicts w !! d = Some st ∧ keeps st st') ∨
             (only_n_most_recent_images st' = 10%Z ∧ custom_system_prompt st' = "")))
    as [F B].
  { split; intros d st H; [|left]; eauto using keeps_refl. }
  assert (∀ d0 st0 st1, dicts w !! d0 = Some st0 → keeps st0 st1 →
    (∀ d st, dicts w !! d = Some st →
       ∃ st', <[d0 := st1]> (dicts w) !! d = Some st' ∧ keeps st st') ∧
    (∀ d st', <[d0 := st1]> (dicts w) !! d = Some st' →
       (∃ st, dicts w !! d = Some st ∧ keeps st st') ∨
       (only_n_most_recent_images st' = 10%Z ∧ custom_system_prompt st' = "")))
    as Ins.
  { intros d0 st0 st1 H0 K.
    destruct (insert_dict_keeps (dicts w) d0 st0 st1 H0 K) as [F' B'].
    split; [done|]. intros d st' H. left. eauto. }
  destruct e as [u|u|u|u|t c|t r i|t req resp err now|t msgs|t o].
  - destruct C as [[_ ->]|[Hauth (d & st & h & Hd & Hst & Hh & ->)]]; [done|].
    destruct (init_user_state_ext (effective_user_id u) w) as (Xd & _ & _).
    cbn. split; [|split].
    + intros d0 st0 H0. eauto using keeps_refl.
    + intros d0 st' [H| ->]%init_user_state_dicts_back; [left|by right].
      eauto using keeps_refl.
    + intros _ u' d'. apply init_user_state_keeps_user.
  - destruct C as [[_ ->]|[_ ->]]; done.
  - destruct C as [[_ ->]|[_ ->]]; done.
  - destruct C as [[_ ->]|[(_ & _ & ->)|(_ & t & tk & _ & _ & ->)]]; done.
  - destruct C as (tk & _ & ->). by destruct c.
  - destruct C as (tk & st & res & _ & Hst & Hc).
    destruct (tool_output_callback_calls (t_update tk) (t_state tk) r i w st Hst)
      as (calls & res' & _ & E).
    rewrite E in Hc. injection Hc as <- <-. cbn.
    destruct (Ins (t_state tk) st
                (set_tools (<[i := r]> (tools st)) st) Hst) as [F' B'];
      [|done].
    repeat split; try done. cbn. intros k Hk.
    apply lookup_insert_is_Some. destruct (decide (i = k)); auto.
  - destruct C as (tk & st & _ & Hst & ->). cbn.
    destruct (Ins (t_state tk) st
                (set_responses
                   (<[isoformat now := (req, resp)]> (responses st)) st) Hst)
      as [F' B']; [|done].
    repeat split; try done. cbn. intros k Hk.
    apply lookup_insert_is_Some. destruct (decide (isoformat now = k)); auto.
  - destruct C as (tk & h & _ & _ & ->). done.
  - destruct C as (tk & st & h & Hsusp & Hst & Hh & Hf).
    destruct (finish_store t tk o w w' st h Hsusp Hst Hh Hf) as (l' & -> & _).
    destruct (finish_spec t tk o w I Hsusp)
      as (w1 & _ & _ & _ & _ & _ & _ & Hf' & _ & Hu & _).
    rewrite Hf in Hf'. injection Hf' as <-.
    destruct (Ins (t_state tk) st (set_messages l' st) Hst) as [F' B'];
      [by repeat split|].
    split; [done|]. split; [done|]. intros _ u d. by rewrite Hu.
Qed.

(** X7: no handler ever changes the tunables of a state: in every
    reachable world every state dict has the image limit 10 and the empty
    prompt suffix it was created with, so every call of the sampling loop
    gets these two values. *)
Theorem tunables_stay_default (es : list event) (w : world) (d : nat)
    (st : user_state) :
  Run initial es = Some w → dicts w !! d = Some st →
  only_n_most_recent_images st = 10%Z ∧ custom_system_prompt st = "".
Proof.
  assert (∀ es w0 w', Run w0 es = Some w' → invariant w0 →
            (∀ d st, dicts w0 !! d = Some st →
               only_n_most_recent_images st = 10%Z ∧ custom_system_prompt st = "") →
            (∀ d st, dicts w' !! d = Some st →
               only_n_most_recent_images st = 10%Z ∧ custom_system_prompt st = ""))
    as H.
  { clear. intros es. induction es as [|e es IH]; intros w0 w' Hr I P.
    - by injection Hr as <-.
    - rewrite run_cons in Hr. destruct (Step w0 e) as [w1|] eqn:E; [|done].
      apply (IH w1 w' Hr (step_invariant _ _ _ E I)).
      destruct (step_dicts w0 e w1 E I) as (_ & B & _).
      intros d st' [(st & Hst & (_ & _ & N & C))|?]%B; [|done].
      destruct (P d st Hst). split; congruence. }
  intros Hr Hst. eapply (H es initial w Hr invariant_initial); [|exact Hst].
  by intros d0 st0 ?.
Qed.

(** X8: only a reset takes tool results and logged responses away from a
    user.  Along any run without a reset command the user keeps the same
    state dict, and every tool-result identifier and every response key
    recorded in it is still recorded: cancellation clears the history, not
    these. *)
Theorem tool_results_and_responses_survive (es : list event) (w : world)
    (es' : list event) (w' : world) (user_id : Z) (d : nat) (st : user_state) :
  Run initial es = Some w → Run w es' = Some w' →
  Forall (λ e, is_reset e = false) es' →
  user_states w !! user_id = Some d → dicts w !! d = Some st →
  ∃ st', user_states w' !! user_id = Some d ∧ dicts w' !! d = Some st' ∧
         keeps st st'.
Proof.
  intros I%reachable_invariant. revert w I st.
  induction es' as [|e es' IH]; intros w I st Hr Hq Hu Hst.
  - injection Hr as <-. eauto using keeps_refl.
  - rewrite run_cons in Hr. destruct (Step w e) as [w1|] eqn:E; [|done].
    apply Forall_cons in Hq as [Hq1 Hq].
    destruct (step_dicts w e w1 E I) as (F & _ & U).
    destruct (F d st Hst) as (st1 & Hst1 & K1).
    destruct (IH w1 (step_invariant _ _ _ E I) st1 Hr Hq (U Hq1 _ _ Hu) Hst1)
      as (st' & ? & ? & K2).
    eauto using keeps_trans.
Qed.

(** ** Conversations do not share lists *)

Lemma separated_initial : separated initial.
Proof. split; cbn; intros; done. Qed.

Lemma separated_ext w w' :
  dicts w' = dicts w → tasks w' = tasks w → separated w → separated w'.
Proof. intros Ed Et [S1 S2 S3]. split; rewrite ?Ed, ?Et; eauto. Qed.

Lemma separated_init_user_state user_id w :
  invariant w → separated w → separated (init_user_state user_id w).
Proof.
  intros I [S1 S2 S3]. unfold init_user_state.
  destruct (user_states w !! user_id); [done|].
  assert (∀ d st, (dicts w ++ [mkState (length (lists w)) ∅ ∅ 10 ""]) !! d
                  = Some st →
            dicts w !! d = Some st ∨
            (d = length (dicts w) ∧ messages st = length (lists w))) as Hcase.
  { intros d st [H|[Hge H]]%lookup_app_Some; [by left|right].
    destruct (d - length (dicts w)) eqn:E; cbn in H; [|done].
    injection H as <-. split; [lia|done]. }
  split; cbn.
  - intros d1 d2 st1 st2 [H1|[-> E1]]%Hcase [H2|[-> E2]]%Hcase E; eauto.
    + pose proof (inv_dicts w I _ _ H1). lia.
    + pose proof (inv_dicts w I _ _ H2). lia.
  - intros t tk d st Ht [H|[-> E1]]%Hcase E; eauto.
    destruct (inv_tasks w I _ _ Ht) as (_ & ? & _). lia.
  - eauto.
Qed.

Lemma step_separated w e w' :
  Step w e = Some w' → invariant w → separated w → separated w'.
Proof.
  intros Hs I S. pose proof (step_cases w e w' Hs I) as C.
  destruct e as [u|u|u|u|t c|t r i|t req resp err now|t msgs|t o].
  - destruct C as [[_ ->]|[Hauth (d & st & h & Hd & Hst & Hh & ->)]]; [done|].
    destruct (separated_init_user_state (effective_user_id u) w I S)
      as [S1 S2 S3].
    destruct (init_user_state_frame (effective_user_id u) w) as (_ & Et & _).
    rewrite Et in S2, S3.
    assert (∀ t tk, (tasks w ++ [mkTask u d (length (sent w)) (messages st)
                                        false None None]) !! t = Some tk →
              tasks w !! t = Some tk ∨
              (t_state tk = d ∧ t_messages tk = messages st)) as Hcase.
    { intros t tk [H|[_ H]]%lookup_app_Some; [by left|right].
      destruct (t - length (tasks w)); cbn in H; [|done]. by injection H as <-. }
    split; cbn.
    + done.
    + intros t tk d2 st2 [Ht|[-> Em]]%Hcase H2 E; [eauto|].
      rewrite Em in E. eauto.
    + intros t1 t2 tk1 tk2 [H1|[-> E1]]%Hcase [H2|[-> E2]]%Hcase E; eauto.
      * rewrite E2 in E. eauto.
      * rewrite E1 in E. symmetry in E. symmetry. eauto.
  - destruct C as [[_ ->]|[_ ->]]; [done|]. by apply (separated_ext w).
  - destruct C as [[_ ->]|[_ ->]]; [done|]. by apply (separated_ext w).
  - destruct C as [[_ ->]|[(_ & _ & ->)|(_ & t & tk & _ & Hsusp & ->)]];
      [done|by apply (separated_ext w)|].
    apply suspended_Some in Hsusp as [Ht _]. destruct S as [S1 S2 S3].
    assert (∀ t0 tk0, <[t:=set_cancel_requested tk]> (tasks w) !! t0 = Some tk0 →
              ∃ tk1, tasks w !! t0 = Some tk1 ∧ t_state tk1 = t_state tk0 ∧
                     t_messages tk1 = t_messages tk0) as Hcase.
    { intros t0 tk0 [[-> [<- _]]|[_ H]]%list_lookup_insert_Some; eauto. }
    split; cbn.
    + done.
    + intros t0 tk0 d st (tk1 & H1 & <- & <-)%Hcase; eauto.
    + intros t1 t2 tk1 tk2 (tk1' & H1 & <- & <-)%Hcase (tk2' & H2 & <- & <-)%Hcase.
      eauto.
  - destruct C as (tk & _ & ->). apply (separated_ext w); [| |done]; by destruct c.
  - destruct C as (tk & st & res & _ & Hst & Hc).
    destruct (tool_output_callback_calls (t_update tk) (t_state tk) r i w st Hst)
      as (calls & res' & _ & E).
    rewrite E in Hc. injection Hc as <- <-. destruct S as [S1 S2 S3].
    assert (∀ d0 st0, <[t_state tk:=set_tools (<[i:=r]> (tools st)) st]> (dicts w)
                      !! d0 = Some st0 →
              ∃ st1, dicts w !! d0 = Some st1 ∧ messages st1 = messages st0)
      as Hcase.
    { intros d0 st0 [[<- [<- _]]|[_ H]]%list_lookup_insert_Some; eauto. }
    split; cbn.
    + intros d1 d2 st1 st2 (st1' & H1 & <-)%Hcase (st2' & H2 & <-)%Hcase. eauto.
    + intros t0 tk0 d0 st0 Ht (st1 & H1 & <-)%Hcase. eauto.
    + done.
  - destruct C as (tk & st & _ & Hst & ->). destruct S as [S1 S2 S3].
    assert (∀ d0 st0,
              <[t_state tk:=set_responses
                  (<[isoformat now:=(req, resp)]> (responses st)) st]> (dicts w)
              !! d0 = Some st0 →
              ∃ st1, dicts w !! d0 = Some st1 ∧ messages st1 = messages st0)
      as Hcase.
    { intros d0 st0 [[<- [<- _]]|[_ H]]%list_lookup_insert_Some; eauto. }
    split; cbn.
    + intros d1 d2 st1 st2 (st1' & H1 & <-)%Hcase (st2' & H2 & <-)%Hcase. eauto.
    + intros t0 tk0 d0 st0 Ht (st1 & H1 & <-)%Hcase. eauto.
    + done.
  - destruct C as (tk & h & _ & _ & ->). by apply (separated_ext w).
  - destruct C as (tk & st & h & Hsusp & Hst & Hh & Hf).
    destruct (finish_store t tk o w w' st h Hsusp Hst Hh Hf)
      as (l' & Ed & Hl' & _).
    destruct (finish_spec t tk o w I Hsusp)
      as (w1 & _ & _ & _ & _ & _ & _ & Hf' & _ & _ & _ & Et & _).
    rewrite Hf in Hf'. injection Hf' as <-.
    apply suspended_Some in Hsusp as [Ht _]. destruct S as [S1 S2 S3].
    assert (∀ t0 tk0, tasks w' !! t0 = Some tk0 →
              ∃ tk1, tasks w !! t0 = Some tk1 ∧ t_state tk1 = t_state tk0 ∧
                     t_messages tk1 = t_messages tk0) as Tcase.
    { rewrite Et. intros t0 tk0 [[-> [<- _]]|[_ H]]%list_lookup_insert_Some; eauto. }
    assert (∀ d0 st0, dicts w' !! d0 = Some st0 →
              (d0 ≠ t_state tk ∧ dicts w !! d0 = Some st0) ∨
              (d0 = t_state tk ∧ messages st0 = l')) as Dcase.
    { rewrite Ed. intros d0 st0 [[<- [<- _]]|[? H]]%list_lookup_insert_Some; auto. }
    assert (∀ d2 st2, dicts w !! d2 = Some st2 → messages st2 = l' →
              d2 = t_state tk) as Own.
    { intros d2 st2 H2 E. destruct Hl' as [-> | [-> | ->]].
      - symmetry. eauto.
      - eauto.
      - pose proof (inv_dicts w I _ _ H2). lia. }
    assert (∀ t1 tk1, tasks w !! t1 = Some tk1 → t_messages tk1 = l' →
              t_state tk1 = t_state tk) as Town.
    { intros t1 tk1 H1 E. destruct Hl' as [-> | [-> | ->]].
      - eauto.
      - eauto.
      - destruct (inv_tasks w I _ _ H1) as (_ & ? & _). lia. }
    split.
    + intros d1 d2 st1 st2 [[N1 H1]|[-> E1]]%Dcase [[N2 H2]|[-> E2]]%Dcase E;
        eauto.
      * rewrite E2 in E. by destruct N1; eauto.
      * rewrite E1 in E. symmetry in E. by destruct N2; eauto.
    + intros t0 tk0 d0 st0 (tk1 & H1 & <- & <-)%Tcase [[N H]|[-> E0]]%Dcase E;
        eauto.
      rewrite E0 in E. eauto.
    + intros t1 t2 tk1 tk2 (tk1' & H1 & <- & <-)%Tcase (tk2' & H2 & <- & <-)%Tcase.
      eauto.
Qed.

Lemma reachable_separated es w : Run initial es = Some w → separated w.
Proof.
  assert (∀ es w0 w', Run w0 es = Some w' → invariant w0 → separated w0 →
            separated w') as H.
  { clear. intros es. induction es as [|e es IH]; intros w0 w' Hr I S.
    - by injection Hr as <-.
    - rewrite run_cons in Hr. destruct (Step w0 e) as [w1|] eqn:E; [|done].
      eauto using step_invariant, step_separated. }
  intros Hr. exact (H es initial w Hr invariant_initial separated_initial).
Qed.

(** X9: conversations are isolated.  Whatever the loop of a task does
    (a callback, rewriting its list, ending in any way) changes no state
    dict other than the one the task was started with, and no history other
    than that one's: after a reset, a turn that is still running cannot
    reach the conversation that was started since. *)
Theorem loop_touches_only_its_own_state (es : list event) (w : world)
    (e : event) (w' : world) (t : nat) (tk : task) (d : nat) :
  Run initial es = Some w → Step w e = Some w' →
  loop_task e = Some t → tasks w !! t = Some tk → d ≠ t_state tk →
  dicts w' !! d = dicts w !! d ∧ history w' d = history w d ∧
  ∀ user_id, user_states w !! user_id = Some d →
             user_history w' user_id = user_history w user_id.
Proof.
  intros Hr Hs He Htk Hd.
  pose proof (reachable_invariant _ _ Hr) as I.
  destruct (reachable_separated _ _ Hr) as [S1 S2 S3].
  pose proof (step_cases w e w' Hs I) as C.
  assert (dicts w' !! d = dicts w !! d ∧ history w' d = history w d ∧
          user_states w' = user_states w) as (Ed & Eh & Eu).
  { destruct e as [u|u|u|u|t0 c|t0 r i|t0 req resp err now|t0 msgs|t0 o];
      try done; injection He as ->.
    - destruct C as (tk0 & _ & ->). by destruct c.
    - destruct C as (tk0 & st & res & [Ht0 _]%suspended_Some & Hst & Hc).
      assert (tk0 = tk) as -> by congruence.
      destruct (tool_output_callback_calls (t_update tk) (t_state tk) r i w st Hst)
        as (calls & res' & _ & E).
      rewrite E in Hc. injection Hc as <- <-. unfold history. cbn.
      by rewrite list_lookup_insert_ne.
    - destruct C as (tk0 & st & [Ht0 _]%suspended_Some & Hst & ->).
      assert (tk0 = tk) as -> by congruence. unfold history. cbn.
      by rewrite list_lookup_insert_ne.
    - destruct C as (tk0 & h & [Ht0 _]%suspended_Some & Hh & ->).
      assert (tk0 = tk) as -> by congruence. unfold history. cbn.
      split; [done|]. split; [|done].
      destruct (dicts w !! d) as [st|] eqn:Hst; [|done]. cbn.
      rewrite list_lookup_insert_ne; [done|].
      intros E. apply Hd. symmetry. eauto.
    - destruct C as (tk0 & st & h & Hsusp & Hst & Hh & Hf).
      pose proof Hsusp as [Ht0 _]%suspended_Some.
      assert (tk0 = tk) as -> by congruence.
      destruct (finish_store t tk o w w' st h Hsusp Hst Hh Hf)
        as (l' & Ed & _ & _ & El).
      destruct (finish_spec t tk o w I Hsusp)
        as (w1 & _ & _ & _ & _ & _ & _ & Hf' & _ & Hu & _).
      rewrite Hf in Hf'. injection Hf' as <-.
      unfold history. rewrite Ed, list_lookup_insert_ne by done.
      split; [done|]. split; [|done].
      destruct (dicts w !! d) as [st'|] eqn:Hst'; [|done]. cbn.
      apply El; [|by eapply inv_dicts].
      intros E. apply Hd. eauto. }
  split; [done|]. split; [done|].
  intros u Hu. unfold user_history. by rewrite Eu, Hu.
Qed.

(** ** Overlapping turns, resets and the shared list *)

(** X10: the [finally] clause of [handle_message] deletes the registry
    entry of the user, whichever task it refers to.  When two turns of one
    user overlap, the end of one leaves the other running but unregistered,
    and a stop command then answers that there is nothing to stop. *)
Theorem finished_turn_unregisters_running_one (es : list event) (w : world)
    (t1 t2 : nat) (tk1 tk2 : task) (o : loop_outcome) (update : Update) :
  Run initial es = Some w →
  suspended w t1 = Some tk1 → suspended w t2 = Some tk2 → t1 ≠ t2 →
  effective_user_id (t_update tk1) = effective_user_id update →
  ∃ w1,
    Step w (loop_ends t1 o) = Some w1 ∧
    suspended w1 t2 = Some tk2 ∧
    active_tasks w1 !! effective_user_id update = None ∧
    Step w1 (stop_command update)
    = Some (send (ReplyText update nothing_to_stop_text None) w1).
Proof.
  intros Hr Hs1 Hs2 Hne Hu.
  pose proof (reachable_invariant _ _ Hr) as I.
  destruct (only_the_authorized_are_served _ _ Hr) as [_ A2 _ _].
  pose proof Hs1 as [Ht1 _]%suspended_Some.
  pose proof (A2 _ _ Ht1) as Hauth. rewrite Hu in Hauth.
  destruct (finish_spec t1 tk1 o w I Hs1)
    as (w1 & _ & _ & _ & _ & _ & _ & Hf & _ & _ & Ha & Ht & _).
  exists w1. rewrite (step_loop_ends _ _ _ _ Hs1). split; [done|].
  assert (active_tasks w1 !! effective_user_id update = None) as Hnone.
  { rewrite Ha, Hu. apply lookup_delete_eq. }
  split; [|split; [done|]].
  - apply suspended_Some in Hs2 as [Ht2 Hres2]. apply suspended_Some.
    by rewrite Ht, list_lookup_insert_ne.
  - cbn. unfold stop. by rewrite Hauth, Hnone.
Qed.

(** X11: a reset does not stop a running turn.  It leaves the registry,
    the task and every stored object as they are; the loop goes on, and
    however it ends afterwards the user still has no conversation state:
    what that turn produced is attached to no one. *)
Theorem reset_does_not_stop_running_turn (es : list event) (w : world)
    (update : Update) (t : nat) (tk : task) :
  Run initial es = Some w →
  Unauthorized (effective_user_id update) = false →
  suspended w t = Some tk →
  ∃ w1,
    Step w (reset_command update) = Some w1 ∧
    suspended w1 t = Some tk ∧ active_tasks w1 = active_tasks w ∧
    dicts w1 = dicts w ∧ lists w1 = lists w ∧
    ∀ o, ∃ w2, Step w1 (loop_ends t o) = Some w2 ∧
               user_states w2 !! effective_user_id update = None.
Proof.
  intros I%reachable_invariant Hauth Hs.
  assert (Step w (reset_command update) = Some (reset TELEGRAM_USER_ID update w))
    as E by done.
  pose proof (step_invariant _ _ _ E I) as I1.
  pose proof (step_cases _ _ _ E I) as [[Hu _]|[_ Hw1]]; [congruence|].
  exists (reset TELEGRAM_USER_ID update w). split; [done|]. rewrite Hw1 in *.
  assert (suspended
            (send (ReplyText update reset_text None)
               (set_user_states
                  (delete (effective_user_id update) (user_states w)) w)) t
          = Some tk) as Hs1 by done.
  split; [done|]. split; [done|]. split; [done|]. split; [done|].
  intros o. destruct (finish_spec t tk o _ I1 Hs1)
    as (w2 & _ & _ & _ & _ & _ & _ & Hf & _ & Hus & _).
  exists w2. rewrite (step_loop_ends _ _ _ _ Hs1). split; [done|].
  rewrite Hus. cbn. apply lookup_delete_eq.
Qed.

(** X12: the loop is handed the stored list itself, not a copy.  While the
    state still references that list, what the loop writes into it is the
    stored history at once, and it stays the stored history when the loop
    then raises an error. *)
Theorem loop_writes_reach_stored_history (es : list event) (w : world)
    (t : nat) (tk : task) (st : user_state) (msgs : list message) (e : exc) :
  Run initial es = Some w → suspended w t = Some tk →
  dicts w !! t_state tk = Some st → messages st = t_messages tk →
  is_Exception e = true →
  ∃ w1 w2,
    Step w (loop_mutates t msgs) = Some w1 ∧
    history w1 (t_state tk) = Some msgs ∧
    Step w1 (loop_ends t (raised e)) = Some w2 ∧
    history w2 (t_state tk) = Some msgs.
Proof.
  intros I%reachable_invariant Hs Hst Em He.
  pose proof Hs as [Ht _]%suspended_Some.
  destruct (task_store w t tk I Ht) as (st0 & h & hp & Hst0 & Hh & Hhp).
  assert (st0 = st) as -> by congruence.
  assert (Step w (loop_mutates t msgs)
          = Some (set_list (t_messages tk) msgs w)) as E1.
  { cbn. rewrite Hs. cbn. by rewrite Hhp. }
  pose proof (step_invariant _ _ _ E1 I) as I1.
  assert (suspended (set_list (t_messages tk) msgs w) t = Some tk) as Hs1 by done.
  assert (history (set_list (t_messages tk) msgs w) (t_state tk) = Some msgs)
    as Hh1.
  { unfold history. cbn. rewrite Hst. cbn. rewrite Em.
    by rewrite list_lookup_insert_eq by eauto using lookup_lt_Some. }
  destruct (finish_spec t tk (raised e) _ I1 Hs1)
    as (w2 & st1 & h1 & _ & Hst1 & Hh1' & _ & Hf & _ & _ & _ & _ & _ & Hhist & _).
  exists (set_list (t_messages tk) msgs w), w2.
  rewrite (step_loop_ends _ _ _ _ Hs1).
  split; [done|]. split; [done|]. split; [done|].
  rewrite Hhist. unfold history in Hh1. rewrite Hst1 in Hh1.
  cbn in Hh1, Hh1'. rewrite Hh1' in Hh1. by destruct e.
Qed.

(** ** The tool-output callback, case by case *)


(** X14: the replies of the callback are decided field by field, an empty
    text counting as absent: the output text if there is one, then the
    photo and its caption if there is an image (which decodes), then the
    error text if there is one.  A result with no field set is recorded and
    answered by nothing. *)
Theorem tool_output_replies_by_field (es : list event) (w : world)
    (t : nat) (tk : task) (tool_output : ToolResult) (tool_use_id : string)
    (image_bytes : string) :
  Run initial es = Some w → suspended w t = Some tk →
  (truthy (base64_image tool_output) = true →
   b64decode (default "" (base64_image tool_output)) = Some image_bytes) →
  ∃ w' st',
    Step w (loop_tool_output t tool_output tool_use_id) = Some w' ∧
    dicts w' !! t_state tk = Some st' ∧
    tools st' !! tool_use_id = Some tool_output ∧
    sent w' = sent w ++
      (if truthy (output tool_output) then
         [ReplyText (t_update tk)
            (tool_output_text (default "" (output tool_output))) Markdown]
       else []) ++
      (if truthy (base64_image tool_output) then
         [ReplyPhoto (t_update tk) image_bytes;
          ReplyText (t_update tk) screenshot_caption Markdown]
       else []) ++
      (if truthy (error tool_output) then
         [ReplyText (t_update tk)
            (tool_error_text (default "" (error tool_output))) Markdown]
       else []).
Proof.
  intros I%reachable_invariant Hs Hb.
  pose proof Hs as [Ht _]%suspended_Some.
  destruct (task_store w t tk I Ht) as (st & h & hp & Hst & _).
  cbn. rewrite Hs. cbn. unfold tool_output_callback. rewrite Hst. cbn.
  destruct (truthy (base64_image tool_output)); [rewrite (Hb eq_refl)|];
    destruct (truthy (output tool_output)), (truthy (error tool_output)); cbn;
    eexists _, _; (split; [done|]); cbn;
    rewrite list_lookup_insert_eq by eauto using lookup_lt_Some;
    (split; [done|]); cbn; rewrite lookup_insert_eq, <- ?app_assoc, ?app_nil_r;
    done.
Qed.

(** X15: the output callback only sends.  A step of it leaves the
    conversation store, the registry and the tasks as they are and adds at
    most one call, a reply to the update of the task; a block that is
    neither text nor a tool use adds none. *)
Theorem output_callback_only_sends (es : list event) (w : world) (t : nat)
    (tk : task) (c : BetaContentBlockParam) :
  Run initial es = Some w → suspended w t = Some tk →
  ∃ w' calls,
    Step w (loop_output t c) = Some w' ∧
    user_states w' = user_states w ∧ active_tasks w' = active_tasks w ∧
    dicts w' = dicts w ∧ lists w' = lists w ∧ tasks w' = tasks w ∧
    sent w' = sent w ++ calls ∧ (length calls ≤ 1)%nat ∧
    Forall (λ call, recipient call = Some (t_update tk) ∧ reply call) calls ∧
    match c with other_block _ => calls = [] | _ => length calls = 1 end.
Proof.
  intros _ Hs. cbn. rewrite Hs. cbn. destruct c; cbn.
  - exists (send (ReplyText (t_update tk) (assistant_text text) Markdown) w),
      [ReplyText (t_update tk) (assistant_text text) Markdown].
    repeat (split; [done|]). split; [|done]. by repeat constructor.
  - exists (send (ReplyText (t_update tk) (tool_use_text name input) Markdown) w),
      [ReplyText (t_update tk) (tool_use_text name input) Markdown].
    repeat (split; [done|]). split; [|done]. by repeat constructor.
  - exists w, []. rewrite app_nil_r. repeat (split; [done|]).
    split; [cbn; lia|]. split; [|done]. by constructor.
Qed.

(** X16: the cancellation handler pops the last entry off the list object
    the state references, in place, and only then gives the state a new
    empty list.  The old list, which a loop of an overlapping turn may
    still hold, has lost its last entry. *)
Theorem cancellation_pops_the_shared_list (es : list event) (w : world)
    (t : nat) (tk : task) (st : user_state) (h : list message) :
  Run initial es = Some w → suspended w t = Some tk →
  dicts w !! t_state tk = Some st → lists w !! messages st = Some h →
  ∃ w' st',
    Step w (loop_ends t (raised CancelledError)) = Some w' ∧
    lists w' !! messages st = Some (removelast h) ∧
    dicts w' !! t_state tk = Some st' ∧
    messages st' = length (lists w) ∧ messages st' ≠ messages st ∧
    lists w' !! messages st' = Some [].
Proof.
  intros I%reachable_invariant Hs Hst Hh.
  assert (messages st < length (lists w)) as Bl by eauto using lookup_lt_Some.
  rewrite (step_loop_ends _ _ _ _ Hs).
  unfold finish, process_message_end, process_message_inner.
  cbn -[handle_message_end]. rewrite Hst. cbn -[handle_message_end].
  rewrite Hh. cbn -[handle_message_end]. rewrite (pop_spec _ _ _ Hh).
  rewrite handle_message_end_spec by done. unfold_world.
  eexists _, _. split; [done|]. cbn. rewrite length_insert.
  split; [|split; [|split; [|split]]].
  - rewrite lookup_app_l by (by rewrite length_insert).
    by rewrite list_lookup_insert_eq.
  - by rewrite list_lookup_insert_eq by eauto using lookup_lt_Some.
  - done.
  - cbn. lia.
  - cbn. rewrite lookup_app_r by (by rewrite length_insert).
    by rewrite length_insert, Nat.sub_diag.
Qed.

End Properties.

(** * The properties on the sample deployment *)

Example sample_world_reached :
  sample_run initial sample_events = Some sample_world.
Proof. vm_compute. reflexivity. Qed.


Example sample_history :
  user_history sample_world 42
  = Some [user_entry "hello"; Message "assistant" [text_block "hi"];
          user_entry "take a screenshot"].
Proof. vm_compute. reflexivity. Qed.

Example isoformat_sample : isoformat sample_now = "2024-11-03T01:30:00".
Proof. vm_compute. reflexivity. Qed.

Example isoformat_microsecond :
  isoformat (mkDatetime 2024 11 3 1 30 0 1500) = "2024-11-03T01:30:00.001500".
Proof. vm_compute. reflexivity. Qed.


Example sample_idle_reached :
  sample_run initial (take 3 sample_events) = Some sample_idle.
Proof. vm_compute. reflexivity. Qed.




Lemma unauthorized_sender_is_ignored_witness :
  sample_user_id ≠ Some (pretty 7%Z) ∧
  sample_step sample_world (text_message (mallory "hello")) = Some sample_world ∧
  sample_step sample_world (stop_command (mallory "/stop")) = Some sample_world.
Proof.
  assert (sample_user_id ≠ Some (pretty 7%Z)) as H by (vm_compute; discriminate).
  split; [exact H|].
  destruct (unauthorized_sender_is_ignored sample_user_id sample_b64decode
              sample_world (mallory "hello") H) as (H1 & _ & _ & _).
  destruct (unauthorized_sender_is_ignored sample_user_id sample_b64decode
              sample_world (mallory "/stop") H) as (_ & _ & _ & H4).
  split; [exact H1|exact H4].
Defined.

Lemma message_creates_or_keeps_state_witness :
  sample_run initial [] = Some initial ∧
  unauthorized sample_user_id 42 = false ∧
  ∃ w' d st,
    sample_step initial (text_message (alice "hello")) = Some w' ∧
    user_states w' !! 42%Z = Some d ∧ dicts w' !! d = Some st ∧
    history w' d = Some [user_entry "hello"].
Proof.
  split; [reflexivity|]. split; [vm_compute; reflexivity|].
  destruct (message_creates_or_keeps_state sample_user_id sample_b64decode
              [] initial (alice "hello"))
    as (w' & d & st & H1 & H2 & H3 & H4 & _);
    [reflexivity|vm_compute; reflexivity|].
  exists w', d, st. split; [exact H1|]. split; [exact H2|]. split; [exact H3|].
  exact H4.
Defined.

Lemma reset_then_message_starts_fresh_witness :
  sample_run initial sample_events = Some sample_world ∧
  unauthorized sample_user_id 42 = false ∧
  ∃ w1,
    sample_step sample_world (reset_command (alice "/reset")) = Some w1 ∧
    user_states w1 !! 42%Z = None ∧
    ∃ w3 d,
      sample_step w1 (text_message (alice "hello again")) = Some w3 ∧
      user_states w3 !! 42%Z = Some d ∧
      history w3 d = Some [user_entry "hello again"].
Proof.
  split; [vm_compute; reflexivity|]. split; [vm_compute; reflexivity|].
  destruct (reset_then_message_starts_fresh sample_user_id sample_b64decode
              sample_events sample_world (alice "/reset"))
    as (w1 & H1 & H2 & _ & _ & K);
    [vm_compute; reflexivity|vm_compute; reflexivity|].
  destruct (K [] w1 (alice "hello again") eq_refl (Forall_nil_2 _) eq_refl)
    as (w3 & d & H3 & H4 & _ & _ & H5).
  exists w1. split; [exact H1|]. split; [exact H2|].
  exists w3, d. split; [exact H3|]. split; [exact H4|exact H5].
Defined.



Example sample_state_stored : dicts sample_world !! 0 = Some sample_state.
Proof. vm_compute. reflexivity. Qed.





(** In that run the end of the stopped task then removes the entry of the
    task that replaced it, which no stop command can reach any more. *)
Example stopped_task_unregisters_its_successor :
  ∃ w,
    sample_run sample_world
      [stop_command (alice "/stop"); text_message (alice "never mind");
       loop_ends 1 (raised CancelledError)] = Some w ∧
    is_Some (suspended w 2) ∧ active_tasks w !! 42%Z = None ∧
    user_history w 42 = Some [].
Proof.
  eexists. split; [vm_compute; reflexivity|].
  split; [vm_compute; eexists; reflexivity|]. split; vm_compute; reflexivity.
Qed.


(** * Further properties on the sample deployment *)

Lemma gate_admits_one_user_witness :
  unauthorized sample_user_id 42 = false ∧
  sample_user_id = Some (pretty 42%Z) ∧
  ∀ user_id', unauthorized sample_user_id user_id' = false → user_id' = 42%Z.
Proof.
  split; [vm_compute; reflexivity|].
  apply (gate_admits_one_user sample_user_id 42). vm_compute. reflexivity.
Defined.

Example gate_compares_text :
  unauthorized (Some "042") 42 = true ∧ unauthorized (Some "+42") 42 = true ∧
  unauthorized (Some "42") 42 = false.
Proof. vm_compute. auto. Qed.

Lemma deny_all_without_identity_witness :
  truthy None = false ∧
  run None sample_b64decode initial
    [text_message (alice "hello"); start_command (alice "/start");
     stop_command (mallory "/stop")] = Some initial ∧
  initial = initial.
Proof.
  split; [reflexivity|]. split; [vm_compute; reflexivity|].
  apply (deny_all_without_identity None sample_b64decode
           [text_message (alice "hello"); start_command (alice "/start");
            stop_command (mallory "/stop")] initial);
    [reflexivity|vm_compute; reflexivity].
Defined.


Lemma only_the_authorized_are_served_witness :
  sample_run initial sample_events = Some sample_world ∧
  authorized_only sample_user_id sample_world.
Proof.
  split; [vm_compute; reflexivity|].
  apply (only_the_authorized_are_served sample_user_id sample_b64decode
           sample_events sample_world). vm_compute. reflexivity.
Defined.

Lemma status_message_is_own_processing_reply_witness :
  sample_run initial sample_events = Some sample_world ∧
  tasks sample_world !! 1 = Some sample_task ∧
  sent sample_world !! 3
  = Some (ReplyText (alice "take a screenshot") processing_text None).
Proof.
  split; [vm_compute; reflexivity|]. split; [vm_compute; reflexivity|].
  apply (status_message_is_own_processing_reply sample_user_id sample_b64decode
           sample_events sample_world 1 sample_task); vm_compute; reflexivity.
Defined.

Lemma status_untouched_until_loop_ends_witness :
  sample_run initial sample_events = Some sample_world ∧
  ∃ w', sample_step sample_world (stop_command (alice "/stop")) = Some w' ∧
        terminal_calls 3 (sent w') = terminal_calls 3 (sent sample_world).
Proof.
  split; [vm_compute; reflexivity|]. eexists. split; [vm_compute; reflexivity|].
  apply (status_untouched_until_loop_ends sample_user_id sample_b64decode
           sample_events sample_world (stop_command (alice "/stop")));
    [vm_compute; reflexivity|vm_compute; reflexivity|discriminate].
Defined.

Lemma tunables_stay_default_witness :
  sample_run initial sample_events = Some sample_world ∧
  dicts sample_world !! 0 = Some sample_state ∧
  only_n_most_recent_images sample_state = 10%Z ∧
  custom_system_prompt sample_state = "".
Proof.
  split; [vm_compute; reflexivity|]. split; [vm_compute; reflexivity|].
  apply (tunables_stay_default sample_user_id sample_b64decode sample_events
           sample_world 0 sample_state); vm_compute; reflexivity.
Defined.

Lemma tool_results_and_responses_survive_witness :
  let es' := [loop_tool_output 1 sample_tool_result "toolu_01";
              loop_api_response 1 "POST /v1/messages" None None sample_now;
              loop_ends 1 (raised CancelledError)] in
  sample_run initial sample_events = Some sample_world ∧
  Forall (λ e, is_reset e = false) es' ∧
  user_states sample_world !! 42%Z = Some 0 ∧
  ∃ w' st', sample_run sample_world es' = Some w' ∧
    user_states w' !! 42%Z = Some 0 ∧ dicts w' !! 0 = Some st' ∧
    keeps sample_state st' ∧ history w' 0 = Some [].
Proof.
  intros es'.
  assert (Forall (λ e, is_reset e = false) es') as Hq by (by repeat constructor).
  split; [vm_compute; reflexivity|]. split; [exact Hq|].
  split; [vm_compute; reflexivity|].
  destruct (tool_results_and_responses_survive sample_user_id sample_b64decode
              sample_events sample_world es'
              (default initial (sample_run sample_world es')) 42 0 sample_state)
    as (st' & H1 & H2 & H3);
    [vm_compute; reflexivity|vm_compute; reflexivity|exact Hq
    |vm_compute; reflexivity|vm_compute; reflexivity|].
  eexists _, st'. split; [vm_compute; reflexivity|].
  split; [exact H1|]. split; [exact H2|]. split; [exact H3|].
  vm_compute. reflexivity.
Defined.

Example sample_after_reset_reached :
  sample_run initial sample_reset_events = Some sample_after_reset.
Proof. vm_compute. reflexivity. Qed.

Lemma loop_touches_only_its_own_state_witness :
  sample_run initial sample_reset_events = Some sample_after_reset ∧
  tasks sample_after_reset !! 1 = Some sample_task ∧
  user_states sample_after_reset !! 42%Z = Some 1 ∧
  ∃ w', sample_step sample_after_reset (loop_ends 1 (raised CancelledError))
        = Some w' ∧
        user_history w' 42 = Some [user_entry "start over"].
Proof.
  split; [vm_compute; reflexivity|]. split; [vm_compute; reflexivity|].
  split; [vm_compute; reflexivity|].
  eexists. split; [vm_compute; reflexivity|].
  destruct (loop_touches_only_its_own_state sample_user_id sample_b64decode
              sample_reset_events sample_after_reset
              (loop_ends 1 (raised CancelledError))
              (default initial
                 (sample_step sample_after_reset
                    (loop_ends 1 (raised CancelledError))))
              1 sample_task 1) as (_ & _ & H);
    [vm_compute; reflexivity|vm_compute; reflexivity|reflexivity
    |vm_compute; reflexivity|vm_compute; lia|].
  specialize (H 42%Z). etrans; [|etrans; [apply H|]]; vm_compute; reflexivity.
Defined.

Example sample_overlap_reached :
  sample_run initial (sample_events ++ [text_message (alice "never mind")])
  = Some sample_overlap.
Proof. vm_compute. reflexivity. Qed.

Lemma finished_turn_unregisters_running_one_witness :
  sample_run initial (sample_events ++ [text_message (alice "never mind")])
  = Some sample_overlap ∧
  suspended sample_overlap 1 = Some sample_task ∧
  is_Some (suspended sample_overlap 2) ∧
  ∃ w1,
    sample_step sample_overlap (loop_ends 1 (returned same_list)) = Some w1 ∧
    is_Some (suspended w1 2) ∧
    sample_step w1 (stop_command (alice "/stop"))
    = Some (send (ReplyText (alice "/stop") nothing_to_stop_text None) w1).
Proof.
  split; [vm_compute; reflexivity|]. split; [vm_compute; reflexivity|].
  split; [vm_compute; eexists; reflexivity|].
  destruct (finished_turn_unregisters_running_one sample_user_id
              sample_b64decode
              (sample_events ++ [text_message (alice "never mind")])
              sample_overlap 1 2 sample_task
              (mkTask (alice "never mind") 0 4 1 false None None)
              (returned same_list) (alice "/stop"))
    as (w1 & H1 & H2 & _ & H3);
    [vm_compute; reflexivity|vm_compute; reflexivity|vm_compute; reflexivity
    |lia|reflexivity|].
  exists w1. split; [exact H1|]. split; [eexists; exact H2|exact H3].
Defined.

Lemma reset_does_not_stop_running_turn_witness :
  sample_run initial sample_events = Some sample_world ∧
  unauthorized sample_user_id 42 = false ∧
  suspended sample_world 1 = Some sample_task ∧
  ∃ w1,
    sample_step sample_world (reset_command (alice "/reset")) = Some w1 ∧
    suspended w1 1 = Some sample_task ∧
    ∃ w2, sample_step w1 (loop_ends 1 (returned same_list)) = Some w2 ∧
          user_states w2 !! 42%Z = None.
Proof.
  split; [vm_compute; reflexivity|]. split; [vm_compute; reflexivity|].
  split; [vm_compute; reflexivity|].
  destruct (reset_does_not_stop_running_turn sample_user_id sample_b64decode
              sample_events sample_world (alice "/reset") 1 sample_task)
    as (w1 & H1 & H2 & _ & _ & _ & K);
    [vm_compute; reflexivity|vm_compute; reflexivity|vm_compute; reflexivity|].
  exists w1. split; [exact H1|]. split; [exact H2|].
  exact (K (returned same_list)).
Defined.

Lemma loop_writes_reach_stored_history_witness :
  let msgs := [user_entry "take a screenshot";
               Message "assistant" [tool_use_block "toolu_01" "computer" "{}"]] in
  sample_run initial sample_events = Some sample_world ∧
  suspended sample_world 1 = Some sample_task ∧
  dicts sample_world !! 0 = Some sample_state ∧
  ∃ w1 w2,
    sample_step sample_world (loop_mutates 1 msgs) = Some w1 ∧
    sample_step w1 (loop_ends 1 (raised (OtherException "boom"))) = Some w2 ∧
    history w2 0 = Some msgs.
Proof.
  intros msgs.
  split; [vm_compute; reflexivity|]. split; [vm_compute; reflexivity|].
  split; [vm_compute; reflexivity|].
  destruct (loop_writes_reach_stored_history sample_user_id sample_b64decode
              sample_events sample_world 1 sample_task sample_state msgs
              (OtherException "boom"))
    as (w1 & w2 & H1 & _ & H2 & H3);
    [vm_compute; reflexivity|vm_compute; reflexivity|vm_compute; reflexivity
    |reflexivity|reflexivity|].
  exists w1, w2. split; [exact H1|]. split; [exact H2|exact H3].
Defined.


Lemma tool_output_replies_by_field_witness :
  let silent := mkToolResult (Some "") None (Some "") in
  sample_run initial sample_events = Some sample_world ∧
  suspended sample_world 1 = Some sample_task ∧
  truthy (base64_image silent) = false ∧
  ∃ w' st',
    sample_step sample_world (loop_tool_output 1 silent "toolu_02") = Some w' ∧
    dicts w' !! 0 = Some st' ∧ tools st' !! "toolu_02" = Some silent ∧
    sent w' = sent sample_world ++ [] ++ [] ++ [].
Proof.
  intros silent.
  split; [vm_compute; reflexivity|]. split; [vm_compute; reflexivity|].
  split; [reflexivity|].
  apply (tool_output_replies_by_field sample_user_id sample_b64decode
           sample_events sample_world 1 sample_task silent "toolu_02" "");
    [vm_compute; reflexivity|vm_compute; reflexivity|discriminate].
Defined.

Lemma output_callback_only_sends_witness :
  sample_run initial sample_events = Some sample_world ∧
  suspended sample_world 1 = Some sample_task ∧
  ∃ w' calls,
    sample_step sample_world (loop_output 1 (other_block "thinking")) = Some w' ∧
    sent w' = sent sample_world ++ calls ∧ calls = [].
Proof.
  split; [vm_compute; reflexivity|]. split; [vm_compute; reflexivity|].
  destruct (output_callback_only_sends sample_user_id sample_b64decode
              sample_events sample_world 1 sample_task (other_block "thinking"))
    as (w' & calls & H1 & _ & _ & _ & _ & _ & H2 & _ & _ & H3);
    [vm_compute; reflexivity|vm_compute; reflexivity|].
  exists w', calls. split; [exact H1|]. split; [exact H2|exact H3].
Defined.

Lemma cancellation_pops_the_shared_list_witness :
  sample_run initial (sample_events ++ [text_message (alice "never mind")])
  = Some sample_overlap ∧
  suspended sample_overlap 1 = Some sample_task ∧
  dicts sample_overlap !! 0 = Some sample_state ∧
  ∃ w', sample_step sample_overlap (loop_ends 1 (raised CancelledError))
        = Some w' ∧
        lists w' !! 1
        = Some [user_entry "hello"; Message "assistant" [text_block "hi"];
                user_entry "take a screenshot"].
Proof.
  split; [vm_compute; reflexivity|]. split; [vm_compute; reflexivity|].
  split; [vm_compute; reflexivity|].
  destruct (cancellation_pops_the_shared_list sample_user_id sample_b64decode
              (sample_events ++ [text_message (alice "never mind")])
              sample_overlap 1 sample_task sample_state
              [user_entry "hello"; Message "assistant" [text_block "hi"];
               user_entry "take a screenshot"; user_entry "never mind"])
    as (w' & st' & H1 & H2 & _);
    [vm_compute; reflexivity|vm_compute; reflexivity|vm_compute; reflexivity
    |vm_compute; reflexivity|].
  exists w'. split; [exact H1|exact H2].
Defined.
